(** * CircleSimulation: a ball bouncing inside a circular boundary

    A shallow embedding of [src/CircleSimulation.ts] and the properties of
    its physics step, trail buffers, drag handling, clock and recording
    life cycle.

    Numbers.  A JavaScript [number] is an IEEE-754 double.  The embedding
    idealises the finite doubles as the real numbers (no rounding, no
    overflow, no signed zero) and keeps one extra value, [NaN], for the
    results that leave the finite numbers.  The program divides twice, both
    times by a Euclidean norm: [dx / distance] is [0 / 0] when the norm is
    zero, and [minVelocity / currentVelocity] is multiplied at once by the
    zero velocity it was computed from, so on real-valued inputs every
    division by zero stores [NaN] in the state, which is what [div] and
    [mul] below compute.

    Rendering.  [draw], the overlay texts, the colour and the audio graph
    only read the simulation state; they are left out of the state. *)

From Stdlib Require Import Reals Lra Lia List Bool Arith.
Import ListNotations.

Open Scope R_scope.

(** ** JavaScript numbers *)

Module JSNum.

Inductive num : Type :=
| Fin (r : R)
| NaN.

Definition Rltb (x y : R) : bool := if Rlt_dec x y then true else false.
Definition Rleb (x y : R) : bool := if Rle_dec x y then true else false.

Definition lift2 (f : R -> R -> R) (a b : num) : num :=
  match a, b with
  | Fin x, Fin y => Fin (f x y)
  | _, _ => NaN
  end.

Definition add : num -> num -> num := lift2 Rplus.
Definition sub : num -> num -> num := lift2 Rminus.
Definition mul : num -> num -> num := lift2 Rmult.

(** [a / b]; a zero divisor leaves the finite numbers. *)
Definition div (a b : num) : num :=
  match a, b with
  | Fin x, Fin y => if Req_dec_T y 0 then NaN else Fin (x / y)
  | _, _ => NaN
  end.

(** [Math.sqrt] *)
Definition sqrt (a : num) : num :=
  match a with
  | Fin x => if Rlt_dec x 0 then NaN else Fin (R_sqrt.sqrt x)
  | NaN => NaN
  end.

(** [Math.min]: [NaN] as soon as one argument is. *)
Definition min : num -> num -> num := lift2 Rmin.

(** [Math.cos], [Math.sin] *)
Definition cos (a : num) : num :=
  match a with Fin x => Fin (Rtrigo_def.cos x) | NaN => NaN end.
Definition sin (a : num) : num :=
  match a with Fin x => Fin (Rtrigo_def.sin x) | NaN => NaN end.

(** [Math.atan2(y, x)] on the reals, by quadrant. *)
Definition Ratan2 (y x : R) : R :=
  if Rlt_dec 0 x then atan (y / x)
  else if Rlt_dec x 0 then
    (if Rle_dec 0 y then atan (y / x) + PI else atan (y / x) - PI)
  else if Rlt_dec 0 y then PI / 2
  else if Rlt_dec y 0 then - (PI / 2)
  else 0.

Definition atan2 : num -> num -> num := lift2 Ratan2.

(** Comparisons: every comparison with [NaN] is false. *)
Definition ltb (a b : num) : bool :=
  match a, b with Fin x, Fin y => Rltb x y | _, _ => false end.
Definition leb (a b : num) : bool :=
  match a, b with Fin x, Fin y => Rleb x y | _, _ => false end.
Definition geb (a b : num) : bool := leb b a.

End JSNum.

Import JSNum.

(** ** The browser's MediaRecorder, as far as the program uses it

    [new MediaRecorder(..)] yields a fresh recorder in state ['inactive'];
    [start()] makes it ['recording']; [stop()] makes it ['inactive'] again
    and queues the [dataavailable] and [stop] events, which the browser
    delivers later. *)

Inductive RecordingState : Type := inactive | recording.

Record MediaRecorder : Type := mkMediaRecorder {
  state : RecordingState;
  stopQueued : bool
}.

(** A blob is its bytes; [new Blob(chunks)] concatenates. *)
Definition Blob : Type := list nat.
Definition Blob_size (b : Blob) : nat := length b.
Definition Blob_of_chunks (chunks : list Blob) : Blob := concat chunks.

(** Completion callbacks are told apart by a name. *)
Definition Callback : Type := nat.

Definition point : Type := (num * num)%type.

(** ** The simulation object *)

Record State : Type := mkState {
  (* the MediaRecorder objects created so far; a recorder is its index *)
  recorders : list MediaRecorder;
  mediaRecorder : option nat;
  chunks : list Blob;
  animationId : nat;
  running : bool;
  startTime : R;
  elapsedTime : R;
  onRecordingComplete : option Callback;
  onCollision : bool;
  isDragging : bool;
  GRAVITY : num;
  VELOCITY_INCREASE_FACTOR : num;
  VELOCITY_DECAY : num;
  BALL_GROWTH_RATE : num;
  previousPositions : list point;
  ballRadius : num;
  ballCenter : point;
  ballVelocity : point;
  collisionPoints : list point;
  (* what the two listeners have been called with *)
  collisionCalls : nat;
  completed : list (Callback * Blob)
}.

Definition INITIAL_BALL_RADIUS : R := 5.
Definition MOTION_BLUR_STEPS : nat := 5.
Definition MAX_COLLISION_POINTS : nat := 50.

(** Field assignments [this.f = v]. *)

Definition set_recorders v s := mkState v (mediaRecorder s) (chunks s) (animationId s) (running s) (startTime s) (elapsedTime s) (onRecordingComplete s) (onCollision s) (isDragging s) (GRAVITY s) (VELOCITY_INCREASE_FACTOR s) (VELOCITY_DECAY s) (BALL_GROWTH_RATE s) (previousPositions s) (ballRadius s) (ballCenter s) (ballVelocity s) (collisionPoints s) (collisionCalls s) (completed s).
Definition set_mediaRecorder v s := mkState (recorders s) v (chunks s) (animationId s) (running s) (startTime s) (elapsedTime s) (onRecordingComplete s) (onCollision s) (isDragging s) (GRAVITY s) (VELOCITY_INCREASE_FACTOR s) (VELOCITY_DECAY s) (BALL_GROWTH_RATE s) (previousPositions s) (ballRadius s) (ballCenter s) (ballVelocity s) (collisionPoints s) (collisionCalls s) (completed s).
Definition set_chunks v s := mkState (recorders s) (mediaRecorder s) v (animationId s) (running s) (startTime s) (elapsedTime s) (onRecordingComplete s) (onCollision s) (isDragging s) (GRAVITY s) (VELOCITY_INCREASE_FACTOR s) (VELOCITY_DECAY s) (BALL_GROWTH_RATE s) (previousPositions s) (ballRadius s) (ballCenter s) (ballVelocity s) (collisionPoints s) (collisionCalls s) (completed s).
Definition set_animationId v s := mkState (recorders s) (mediaRecorder s) (chunks s) v (running s) (startTime s) (elapsedTime s) (onRecordingComplete s) (onCollision s) (isDragging s) (GRAVITY s) (VELOCITY_INCREASE_FACTOR s) (VELOCITY_DECAY s) (BALL_GROWTH_RATE s) (previousPositions s) (ballRadius s) (ballCenter s) (ballVelocity s) (collisionPoints s) (collisionCalls s) (completed s).
Definition set_running v s := mkState (recorders s) (mediaRecorder s) (chunks s) (animationId s) v (startTime s) (elapsedTime s) (onRecordingComplete s) (onCollision s) (isDragging s) (GRAVITY s) (VELOCITY_INCREASE_FACTOR s) (VELOCITY_DECAY s) (BALL_GROWTH_RATE s) (previousPositions s) (ballRadius s) (ballCenter s) (ballVelocity s) (collisionPoints s) (collisionCalls s) (completed s).
Definition set_startTime v s := mkState (recorders s) (mediaRecorder s) (chunks s) (animationId s) (running s) v (elapsedTime s) (onRecordingComplete s) (onCollision s) (isDragging s) (GRAVITY s) (VELOCITY_INCREASE_FACTOR s) (VELOCITY_DECAY s) (BALL_GROWTH_RATE s) (previousPositions s) (ballRadius s) (ballCenter s) (ballVelocity s) (collisionPoints s) (collisionCalls s) (completed s).
Definition set_elapsedTime v s := mkState (recorders s) (mediaRecorder s) (chunks s) (animationId s) (running s) (startTime s) v (onRecordingComplete s) (onCollision s) (isDragging s) (GRAVITY s) (VELOCITY_INCREASE_FACTOR s) (VELOCITY_DECAY s) (BALL_GROWTH_RATE s) (previousPositions s) (ballRadius s) (ballCenter s) (ballVelocity s) (collisionPoints s) (collisionCalls s) (completed s).
Definition set_onRecordingComplete v s := mkState (recorders s) (mediaRecorder s) (chunks s) (animationId s) (running s) (startTime s) (elapsedTime s) v (onCollision s) (isDragging s) (GRAVITY s) (VELOCITY_INCREASE_FACTOR s) (VELOCITY_DECAY s) (BALL_GROWTH_RATE s) (previousPositions s) (ballRadius s) (ballCenter s) (ballVelocity s) (collisionPoints s) (collisionCalls s) (completed s).
Definition set_isDragging v s := mkState (recorders s) (mediaRecorder s) (chunks s) (animationId s) (running s) (startTime s) (elapsedTime s) (onRecordingComplete s) (onCollision s) v (GRAVITY s) (VELOCITY_INCREASE_FACTOR s) (VELOCITY_DECAY s) (BALL_GROWTH_RATE s) (previousPositions s) (ballRadius s) (ballCenter s) (ballVelocity s) (collisionPoints s) (collisionCalls s) (completed s).
Definition set_GRAVITY v s := mkState (recorders s) (mediaRecorder s) (chunks s) (animationId s) (running s) (startTime s) (elapsedTime s) (onRecordingComplete s) (onCollision s) (isDragging s) v (VELOCITY_INCREASE_FACTOR s) (VELOCITY_DECAY s) (BALL_GROWTH_RATE s) (previousPositions s) (ballRadius s) (ballCenter s) (ballVelocity s) (collisionPoints s) (collisionCalls s) (completed s).
Definition set_VELOCITY_INCREASE_FACTOR v s := mkState (recorders s) (mediaRecorder s) (chunks s) (animationId s) (running s) (startTime s) (elapsedTime s) (onRecordingComplete s) (onCollision s) (isDragging s) (GRAVITY s) v (VELOCITY_DECAY s) (BALL_GROWTH_RATE s) (previousPositions s) (ballRadius s) (ballCenter s) (ballVelocity s) (collisionPoints s) (collisionCalls s) (completed s).
Definition set_VELOCITY_DECAY v s := mkState (recorders s) (mediaRecorder s) (chunks s) (animationId s) (running s) (startTime s) (elapsedTime s) (onRecordingComplete s) (onCollision s) (isDragging s) (GRAVITY s) (VELOCITY_INCREASE_FACTOR s) v (BALL_GROWTH_RATE s) (previousPositions s) (ballRadius s) (ballCenter s) (ballVelocity s) (collisionPoints s) (collisionCalls s) (completed s).
Definition set_BALL_GROWTH_RATE v s := mkState (recorders s) (mediaRecorder s) (chunks s) (animationId s) (running s) (startTime s) (elapsedTime s) (onRecordingComplete s) (onCollision s) (isDragging s) (GRAVITY s) (VELOCITY_INCREASE_FACTOR s) (VELOCITY_DECAY s) v (previousPositions s) (ballRadius s) (ballCenter s) (ballVelocity s) (collisionPoints s) (collisionCalls s) (completed s).
Definition set_previousPositions v s := mkState (recorders s) (mediaRecorder s) (chunks s) (animationId s) (running s) (startTime s) (elapsedTime s) (onRecordingComplete s) (onCollision s) (isDragging s) (GRAVITY s) (VELOCITY_INCREASE_FACTOR s) (VELOCITY_DECAY s) (BALL_GROWTH_RATE s) v (ballRadius s) (ballCenter s) (ballVelocity s) (collisionPoints s) (collisionCalls s) (completed s).
Definition set_ballRadius v s := mkState (recorders s) (mediaRecorder s) (chunks s) (animationId s) (running s) (startTime s) (elapsedTime s) (onRecordingComplete s) (onCollision s) (isDragging s) (GRAVITY s) (VELOCITY_INCREASE_FACTOR s) (VELOCITY_DECAY s) (BALL_GROWTH_RATE s) (previousPositions s) v (ballCenter s) (ballVelocity s) (collisionPoints s) (collisionCalls s) (completed s).
Definition set_ballCenter v s := mkState (recorders s) (mediaRecorder s) (chunks s) (animationId s) (running s) (startTime s) (elapsedTime s) (onRecordingComplete s) (onCollision s) (isDragging s) (GRAVITY s) (VELOCITY_INCREASE_FACTOR s) (VELOCITY_DECAY s) (BALL_GROWTH_RATE s) (previousPositions s) (ballRadius s) v (ballVelocity s) (collisionPoints s) (collisionCalls s) (completed s).
Definition set_ballVelocity v s := mkState (recorders s) (mediaRecorder s) (chunks s) (animationId s) (running s) (startTime s) (elapsedTime s) (onRecordingComplete s) (onCollision s) (isDragging s) (GRAVITY s) (VELOCITY_INCREASE_FACTOR s) (VELOCITY_DECAY s) (BALL_GROWTH_RATE s) (previousPositions s) (ballRadius s) (ballCenter s) v (collisionPoints s) (collisionCalls s) (completed s).
Definition set_collisionPoints v s := mkState (recorders s) (mediaRecorder s) (chunks s) (animationId s) (running s) (startTime s) (elapsedTime s) (onRecordingComplete s) (onCollision s) (isDragging s) (GRAVITY s) (VELOCITY_INCREASE_FACTOR s) (VELOCITY_DECAY s) (BALL_GROWTH_RATE s) (previousPositions s) (ballRadius s) (ballCenter s) (ballVelocity s) v (collisionCalls s) (completed s).
Definition set_collisionCalls v s := mkState (recorders s) (mediaRecorder s) (chunks s) (animationId s) (running s) (startTime s) (elapsedTime s) (onRecordingComplete s) (onCollision s) (isDragging s) (GRAVITY s) (VELOCITY_INCREASE_FACTOR s) (VELOCITY_DECAY s) (BALL_GROWTH_RATE s) (previousPositions s) (ballRadius s) (ballCenter s) (ballVelocity s) (collisionPoints s) v (completed s).
Definition set_completed v s := mkState (recorders s) (mediaRecorder s) (chunks s) (animationId s) (running s) (startTime s) (elapsedTime s) (onRecordingComplete s) (onCollision s) (isDragging s) (GRAVITY s) (VELOCITY_INCREASE_FACTOR s) (VELOCITY_DECAY s) (BALL_GROWTH_RATE s) (previousPositions s) (ballRadius s) (ballCenter s) (ballVelocity s) (collisionPoints s) (collisionCalls s) v.

(** ** Bounded histories: [push] followed by a guarded [shift] *)

Definition pushBounded {A : Type} (cap : nat) (x : A) (l : list A) : list A :=
  let l' := l ++ [x] in
  if (cap <? length l')%nat then tl l' else l'.


(** ** Vectors *)

Definition norm (p : point) : num :=
  sqrt (add (mul (fst p) (fst p)) (mul (snd p) (snd p))).

Definition scale (p : point) (k : num) : point :=
  (mul (fst p) k, mul (snd p) k).

Section Simulation.

(** The canvas dimensions, read once by the constructor. *)
Variables WIDTH HEIGHT : R.

Definition CIRCLE_RADIUS : R := Rmin WIDTH HEIGHT / 2 - 125.
Definition MAX_BALL_RADIUS : R := CIRCLE_RADIUS * 1.5.
Definition circleCenter : point := (Fin (WIDTH / 2), Fin (HEIGHT / 2)).

(** *** Recording *)

Definition setupRecording (s : State) : State :=
  let id := length (recorders s) in
  let s := set_recorders (recorders s ++ [mkMediaRecorder inactive false]) s in
  set_mediaRecorder (Some id) s.

Definition recorderState (s : State) : option RecordingState :=
  match mediaRecorder s with
  | Some id => option_map state (nth_error (recorders s) id)
  | None => None
  end.

Fixpoint setRecorder (id : nat) (r : MediaRecorder) (l : list MediaRecorder)
  : list MediaRecorder :=
  match l, id with
  | [], _ => []
  | _ :: t, O => r :: t
  | h :: t, S n => h :: setRecorder n r t
  end.

Definition startRecording (onComplete : option Callback) (s : State) : State :=
  let s := setupRecording s in
  match mediaRecorder s, recorderState s with
  | Some id, Some inactive =>
      let s := set_chunks [] s in
      let s := set_onRecordingComplete onComplete s in
      set_recorders (setRecorder id (mkMediaRecorder recording false) (recorders s)) s
  | _, _ => s
  end.

Definition stopRecording (s : State) : State :=
  match mediaRecorder s, recorderState s with
  | Some id, Some recording =>
      set_recorders (setRecorder id (mkMediaRecorder inactive true) (recorders s)) s
  | _, _ => s
  end.

(** The handlers installed on every recorder by [setupRecording]. *)

Definition ondataavailable (data : Blob) (s : State) : State :=
  if (0 <? Blob_size data)%nat then set_chunks (chunks s ++ [data]) s else s.

Definition onstop (s : State) : State :=
  let finalBlob := Blob_of_chunks (chunks s) in
  let s := match onRecordingComplete s with
           | Some cb => set_completed (completed s ++ [(cb, finalBlob)]) s
           | None => s
           end in
  set_chunks [] s.

(** The browser delivering an event to recorder [id]. *)

Definition deliverData (id : nat) (data : Blob) (s : State) : State :=
  match nth_error (recorders s) id with
  | Some _ => ondataavailable data s
  | None => s
  end.

Definition deliverStop (id : nat) (s : State) : State :=
  match nth_error (recorders s) id with
  | Some r =>
      if stopQueued r then
        onstop (set_recorders
                  (setRecorder id (mkMediaRecorder (state r) false) (recorders s)) s)
      else s
  | None => s
  end.

(** *** Reset and configuration *)

Definition reset (now : R) (s : State) : State :=
  let s := set_ballRadius (Fin INITIAL_BALL_RADIUS) s in
  let s := set_ballCenter (Fin (WIDTH / 2), Fin (HEIGHT / 2.7)) s in
  let s := set_ballVelocity (Fin 0.8, Fin 0.8) s in
  let s := set_collisionPoints [] s in
  let s := set_previousPositions [] s in
  let s := set_startTime now s in
  set_elapsedTime 0 s.

(** The constructor: field initialisers, then [reset()]. *)
Definition constructor (onCollision : bool) (now : R) : State :=
  reset now
    (mkState [] None [] 0 false 0 0 None onCollision false
       (Fin 0.4) (Fin 1.02) (Fin 0.9995) (Fin 1.015)
       [] (Fin INITIAL_BALL_RADIUS) (Fin 0, Fin 0) (Fin 0, Fin 0) [] 0 []).

Definition setGravity (value : num) (s : State) : State :=
  set_GRAVITY value s.

Definition setVelocityIncrease (value : num) (s : State) : State :=
  set_VELOCITY_INCREASE_FACTOR (add (Fin 1) value) s.

Definition setVelocityDecay (value : num) (s : State) : State :=
  set_VELOCITY_DECAY value s.

Definition setBallGrowthRate (value : num) (s : State) : State :=
  set_BALL_GROWTH_RATE (add (Fin 1) value) s.

(** *** The physics step *)

(** Gravity, decay, position. *)
Definition integrate (s : State) : State :=
  let vy := add (snd (ballVelocity s)) (GRAVITY s) in
  let vx := mul (fst (ballVelocity s)) (VELOCITY_DECAY s) in
  let vy := mul vy (VELOCITY_DECAY s) in
  let s := set_ballVelocity (vx, vy) s in
  set_ballCenter (add (fst (ballCenter s)) vx, add (snd (ballCenter s)) vy) s.

(** [dx], [dy]: from the circle's centre to the ball's. *)
Definition offset (s : State) : point :=
  (sub (fst (ballCenter s)) (fst circleCenter),
   sub (snd (ballCenter s)) (snd circleCenter)).

Definition reflect (v n : point) : point :=
  let dot := add (mul (fst v) (fst n)) (mul (snd v) (snd n)) in
  let restitution := Fin 0.95 in
  (mul (sub (fst v) (mul (mul (Fin 2) dot) (fst n))) restitution,
   mul (sub (snd v) (mul (mul (Fin 2) dot) (snd n))) restitution).

(** Increase ball size with limit. *)
Definition grow (s : State) : num :=
  if ltb (ballRadius s) (Fin MAX_BALL_RADIUS) then
    min (mul (ballRadius s) (BALL_GROWTH_RATE s)) (Fin MAX_BALL_RADIUS)
  else ballRadius s.

(** Add minimum velocity to prevent stopping. *)
Definition enforceMinVelocity (v : point) : point :=
  let minVelocity := Fin 1.0 in
  let currentVelocity := norm v in
  if ltb currentVelocity minVelocity then
    scale v (div minVelocity currentVelocity)
  else v.

(** The body of [if (distance >= CIRCLE_RADIUS - ballRadius)], run on the
    state after integration. *)
Definition resolveCollision (s : State) : State :=
  let dx := fst (offset s) in
  let dy := snd (offset s) in
  let distance := norm (offset s) in
  let n := (div dx distance, div dy distance) in
  let s := set_ballVelocity (reflect (ballVelocity s) n) s in
  let s := set_ballRadius (grow s) s in
  let s := set_ballVelocity (scale (ballVelocity s) (VELOCITY_INCREASE_FACTOR s)) s in
  let s := set_ballVelocity (enforceMinVelocity (ballVelocity s)) s in
  let angle := atan2 dy dx in
  let collisionX := add (fst circleCenter) (mul (Fin CIRCLE_RADIUS) (cos angle)) in
  let collisionY := add (snd circleCenter) (mul (Fin CIRCLE_RADIUS) (sin angle)) in
  let s := set_collisionPoints
             (pushBounded MAX_COLLISION_POINTS (collisionX, collisionY)
                (collisionPoints s)) s in
  let s := set_ballCenter
             (add (fst circleCenter)
                (mul (sub (Fin CIRCLE_RADIUS) (ballRadius s)) (cos angle)),
              add (snd circleCenter)
                (mul (sub (Fin CIRCLE_RADIUS) (ballRadius s)) (sin angle))) s in
  if onCollision s then set_collisionCalls (S (collisionCalls s)) s else s.

(** The state of a tick up to the collision test. *)
Definition advance (now : R) (s : State) : State :=
  let s := set_elapsedTime ((now - startTime s) / 1000) s in
  let s := set_previousPositions
             (pushBounded MOTION_BLUR_STEPS (ballCenter s) (previousPositions s)) s in
  integrate s.

(** The collision test, on the state after integration. *)
Definition touches (s : State) : bool :=
  geb (norm (offset s)) (sub (Fin CIRCLE_RADIUS) (ballRadius s)).

Definition update (now : R) (s : State) : State :=
  let s := advance now s in
  if touches s then resolveCollision s else s.

(** [draw] paints the state and changes none of it. *)
Definition draw (s : State) : State := s.

(** *** Life cycle

    [now] is what [performance.now()] returns where the method reads it;
    [requestAnimationFrame] hands out increasing handles. *)

Definition animate (now : R) (s : State) : State :=
  if negb (running s) then s
  else
    let s := update now s in
    let s := draw s in
    set_animationId (S (animationId s)) s.

Definition start (now now' : R) (s : State) : State :=
  let s := if negb (running s)
           then set_startTime (now - elapsedTime s * 1000) s
           else s in
  let s := set_running true s in
  animate now' s.

Definition stop (s : State) : State :=
  set_running false s.

Definition isRunning (s : State) : bool := running s.

(** *** Pointer input *)

Definition handleMouseDown (x y : num) (s : State) : State :=
  let dx := sub x (fst (ballCenter s)) in
  let dy := sub y (snd (ballCenter s)) in
  let distance := norm (dx, dy) in
  if leb distance (ballRadius s) then stop (set_isDragging true s) else s.

Definition handleMouseMove (x y : num) (s : State) : State :=
  if isDragging s then
    let s := set_ballCenter (x, y) s in
    let s := set_ballVelocity (Fin 0, Fin 0) s in
    draw s
  else s.

Definition handleMouseUp (now now' : R) (s : State) : State :=
  if isDragging s then start now now' (set_isDragging false s) else s.

(** ** Operation sequences

    The calls of the public interface, and the events the browser
    delivers: an animation frame ([animate] called by the scheduler) and
    the two recorder events. *)

Inductive Op : Type :=
| StartRecording (onComplete : option Callback)
| StopRecording
| Reset (now : R)
| SetGravity (value : num)
| SetVelocityIncrease (value : num)
| SetVelocityDecay (value : num)
| SetBallGrowthRate (value : num)
| Start (now now' : R)
| Stop
| MouseDown (x y : num)
| MouseMove (x y : num)
| MouseUp (now now' : R)
| Frame (now : R)
| DataAvailable (id : nat) (data : Blob)
| Stopped (id : nat).

Definition step (s : State) (o : Op) : State :=
  match o with
  | StartRecording cb => startRecording cb s
  | StopRecording => stopRecording s
  | Reset now => reset now s
  | SetGravity v => setGravity v s
  | SetVelocityIncrease v => setVelocityIncrease v s
  | SetVelocityDecay v => setVelocityDecay v s
  | SetBallGrowthRate v => setBallGrowthRate v s
  | Start now now' => start now now' s
  | Stop => stop s
  | MouseDown x y => handleMouseDown x y s
  | MouseMove x y => handleMouseMove x y s
  | MouseUp now now' => handleMouseUp now now' s
  | Frame now => animate now s
  | DataAvailable id data => deliverData id data s
  | Stopped id => deliverStop id s
  end.

Definition run (ops : list Op) (s : State) : State := fold_left step ops s.

Definition isReset (o : Op) : bool :=
  match o with Reset _ => true | _ => false end.


(** ** Vocabulary of the properties *)

(** The contact point of the tick that starts in [s] at time [now]. *)
Definition contactPoint (now : R) (s : State) : point :=
  let s1 := advance now s in
  let angle := atan2 (snd (offset s1)) (fst (offset s1)) in
  (add (fst (circleCenter))
     (mul (Fin (CIRCLE_RADIUS)) (cos angle)),
   add (snd (circleCenter))
     (mul (Fin (CIRCLE_RADIUS)) (sin angle))).

(** The contact angle of the tick that starts in [s] at time [now]. *)
Definition contactAngle (now : R) (s : State) : num :=
  atan2 (snd (offset (advance now s)))
        (fst (offset (advance now s))).



(** The radius is a finite number within its bounds, and the growth rate a
    finite number that does not shrink. *)
Definition radiusInv (s : State) : Prop :=
  exists r g : R,
    ballRadius s = Fin r /\ BALL_GROWTH_RATE s = Fin g
    /\ INITIAL_BALL_RADIUS <= r <= MAX_BALL_RADIUS /\ 1 <= g.

Definition radiusLe (s s' : State) : Prop :=
  exists r r' : R, ballRadius s = Fin r /\ ballRadius s' = Fin r' /\ r <= r'.

(** The values [setBallGrowthRate] is given are finite and not negative. *)
Definition growthOk (o : Op) : Prop :=
  match o with
  | SetBallGrowthRate v => exists x : R, v = Fin x /\ 0 <= x
  | _ => True
  end.

End Simulation.

(** ** A drag to the wall, on a canvas of 1000 by 1000

    The ball is pressed where [reset] put it, moved to [(500, 900)], beyond
    the wall, and released; [atWall s] is the state in which the release
    runs its tick. *)

Definition held (px py : num) (s : State) : State :=
  set_ballVelocity (Fin 0, Fin 0)
    (set_ballCenter (px, py) (set_running false (set_isDragging true s))).

Definition letGo (now : R) (s : State) : State :=
  set_running true
    (set_startTime (now - elapsedTime s * 1000) (set_isDragging false s)).

Definition dragToWall : list Op :=
  [MouseDown (Fin 500) (Fin 370); MouseMove (Fin 500) (Fin 900); MouseUp 0 0].

Definition atWall (s : State) : State := letGo 0 (held (Fin 500) (Fin 900) s).

(** The simulation as constructed on that canvas at time 0, with no
    collision listener. *)
Definition fresh : State := constructor 1000 1000 false 0.

(** ** Vocabulary of the further properties *)

(** The last [n] entries of a list. *)
Definition lastn {A : Type} (n : nat) (l : list A) : list A := rev (firstn n (rev l)).

(** The centre the ball has at the start of each of the frames [ts]. *)
Fixpoint centersBefore (WIDTH HEIGHT : R) (ts : list R) (s : State) : list point :=
  match ts with
  | [] => []
  | t :: ts' => ballCenter s :: centersBefore WIDTH HEIGHT ts' (animate WIDTH HEIGHT t s)
  end.

(** A coordinate of the ball's centre is no number. *)
Definition offScreen (s : State) : Prop :=
  fst (ballCenter s) = NaN \/ snd (ballCenter s) = NaN.

(** [s'] is not dragging, off screen, and has the collision points, the
    radius and the listener calls of [s]. *)
Definition ballKept (s s' : State) : Prop :=
  isDragging s' = false /\ offScreen s'
  /\ collisionPoints s' = collisionPoints s
  /\ ballRadius s' = ballRadius s
  /\ collisionCalls s' = collisionCalls s.

(** The operations of the recording, and the two halves of the state. *)
Definition isRecordingOp (o : Op) : bool :=
  match o with
  | StartRecording _ | StopRecording | DataAvailable _ _ | Stopped _ => true
  | _ => false
  end.

Definition recordingView (s : State) :=
  (recorders s, mediaRecorder s, chunks s, onRecordingComplete s, completed s).

Definition simulationView (s : State) :=
  (running s, animationId s, startTime s, elapsedTime s, isDragging s,
   (GRAVITY s, VELOCITY_INCREASE_FACTOR s, VELOCITY_DECAY s, BALL_GROWTH_RATE s),
   (ballRadius s, ballCenter s, ballVelocity s),
   (previousPositions s, collisionPoints s, collisionCalls s)).

(** A pointer move to the point [p]. *)
Definition pointerMove (p : point) : Op := MouseMove (fst p) (snd p).

(** The state after the ball was dragged to a position that is no number
    and released. *)
Definition draggedAway : State := animate 1000 1000 0 (letGo 0 (held NaN NaN fresh)).

(** * Properties *)

(** ** Numbers: evaluation on finite values *)

Lemma Rltb_true (x y : R) : x < y -> Rltb x y = true.
Proof. intros Hxy; unfold Rltb; destruct (Rlt_dec x y); [reflexivity | contradiction]. Qed.

Lemma Rltb_false (x y : R) : y <= x -> Rltb x y = false.
Proof. intros Hxy; unfold Rltb; destruct (Rlt_dec x y); [lra | reflexivity]. Qed.

Lemma Rleb_true (x y : R) : x <= y -> Rleb x y = true.
Proof. intros Hxy; unfold Rleb; destruct (Rle_dec x y); [reflexivity | contradiction]. Qed.

Lemma Rleb_spec (x y : R) : Rleb x y = true <-> x <= y.
Proof.
  split; [| apply Rleb_true].
  unfold Rleb; destruct (Rle_dec x y); [trivial | discriminate].
Qed.

Lemma div_Fin (x y : R) : y <> 0 -> div (Fin x) (Fin y) = Fin (x / y).
Proof. intros Hy; simpl; destruct (Req_dec_T y 0); [contradiction | reflexivity]. Qed.

Lemma div_zero (x : R) : div (Fin x) (Fin 0) = NaN.
Proof. simpl; destruct (Req_dec_T 0 0); [reflexivity | congruence]. Qed.

Lemma sqrt_Fin (x : R) : 0 <= x -> sqrt (Fin x) = Fin (R_sqrt.sqrt x).
Proof. intros Hx; simpl; destruct (Rlt_dec x 0); [lra | reflexivity]. Qed.

Lemma norm_Fin (x y : R) : norm (Fin x, Fin y) = Fin (R_sqrt.sqrt (x * x + y * y)).
Proof. unfold norm; simpl fst; simpl snd; simpl mul; simpl add. apply sqrt_Fin; nra. Qed.

(** ** Bounded histories *)

Lemma pushBounded_length {A : Type} (cap : nat) (x : A) (l : list A) :
  (length l <= cap -> length (pushBounded cap x l) <= cap)%nat.
Proof.
  intros Hl; unfold pushBounded.
  destruct (Nat.ltb_spec cap (length (l ++ [x]))) as [Hlt | Hge]; [| exact Hge].
  rewrite length_app in Hlt; simpl in Hlt.
  destruct l as [| o l]; simpl in *; [lia |].
  rewrite length_app; simpl; lia.
Qed.



Section Histories.

Variables WIDTH HEIGHT : R.


Lemma update_previousPositions (now : R) (s : State) :
  previousPositions (update WIDTH HEIGHT now s)
  = pushBounded MOTION_BLUR_STEPS (ballCenter s) (previousPositions s).
Proof.
  unfold update.
  destruct (touches WIDTH HEIGHT (advance now s)); [| reflexivity].
  unfold resolveCollision.
  match goal with |- context [if ?b then _ else _] => destruct b end; reflexivity.
Qed.

Lemma update_collisionPoints (now : R) (s : State) :
  collisionPoints (update WIDTH HEIGHT now s)
  = if touches WIDTH HEIGHT (advance now s)
    then pushBounded MAX_COLLISION_POINTS (contactPoint WIDTH HEIGHT now s) (collisionPoints s)
    else collisionPoints s.
Proof.
  unfold update.
  destruct (touches WIDTH HEIGHT (advance now s)); [| reflexivity].
  unfold resolveCollision.
  match goal with |- context [if ?b then _ else _] => destruct b end; reflexivity.
Qed.












End Histories.


(** ** Pointer input *)

Lemma sqrt_le_bound (x b : R) : 0 <= b -> x <= b * b -> R_sqrt.sqrt x <= b.
Proof.
  intros Hb Hx.
  rewrite <- (sqrt_square b Hb). apply sqrt_le_1_alt, Hx.
Qed.

Lemma sqrt_ge_bound (x b : R) : 0 <= b -> b * b <= x -> b <= R_sqrt.sqrt x.
Proof.
  intros Hb Hx.
  rewrite <- (sqrt_square b Hb) at 1. apply sqrt_le_1_alt, Hx.
Qed.

Lemma sqrt_ge_component (dx dy b : R) : b <= dy -> b <= R_sqrt.sqrt (dx * dx + dy * dy).
Proof.
  intros Hb; destruct (Rle_dec b 0) as [Hneg | Hpos].
  - pose proof (sqrt_pos (dx * dx + dy * dy)); lra.
  - apply sqrt_ge_bound; nra.
Qed.

(** A press inside the ball starts a drag and stops the loop. *)
Lemma handleMouseDown_hit (x y bx by' r : R) (s : State) :
  ballCenter s = (Fin bx, Fin by') ->
  ballRadius s = Fin r ->
  0 <= r ->
  (x - bx) * (x - bx) + (y - by') * (y - by') <= r * r ->
  handleMouseDown (Fin x) (Fin y) s = stop (set_isDragging true s).
Proof.
  intros Hc Hr Hr0 Hin; unfold handleMouseDown.
  rewrite Hc, Hr; simpl fst; simpl snd; simpl sub.
  rewrite norm_Fin; simpl leb.
  rewrite Rleb_true; [reflexivity | apply sqrt_le_bound; assumption].
Qed.

(** C7: while a drag is active, [handleMouseMove x y] puts the ball's centre
    at exactly [(x, y)], sets its velocity to [(0, 0)], leaves the radius,
    the motion-sample history and the collision-point history as they were,
    and leaves the drag active. *)
Theorem drag_move_frame (x y : num) (s : State) :
  isDragging s = true ->
  let s' := handleMouseMove x y s in
  ballCenter s' = (x, y)
  /\ ballVelocity s' = (Fin 0, Fin 0)
  /\ ballRadius s' = ballRadius s
  /\ previousPositions s' = previousPositions s
  /\ collisionPoints s' = collisionPoints s
  /\ isDragging s' = true.
Proof.
  intros Hd s'; subst s'; unfold handleMouseMove; rewrite Hd.
  repeat split; exact Hd.
Qed.

(** ** Configuration *)

(** C10: [setGravity] and [setVelocityDecay] store their argument;
    [setVelocityIncrease] and [setBallGrowthRate] store one plus their
    argument, which on a finite argument is never the argument itself. *)
Theorem setters_store (v : num) (s : State) :
  GRAVITY (setGravity v s) = v
  /\ VELOCITY_DECAY (setVelocityDecay v s) = v
  /\ VELOCITY_INCREASE_FACTOR (setVelocityIncrease v s) = add (Fin 1) v
  /\ BALL_GROWTH_RATE (setBallGrowthRate v s) = add (Fin 1) v
  /\ (forall x : R, v = Fin x ->
        VELOCITY_INCREASE_FACTOR (setVelocityIncrease v s) = Fin (1 + x)
        /\ BALL_GROWTH_RATE (setBallGrowthRate v s) = Fin (1 + x)
        /\ Fin (1 + x) <> v).
Proof.
  repeat split; subst; try reflexivity.
  intros [= Hx]; lra.
Qed.

(** ** The clock *)

Lemma animate_elapsedTime (WIDTH HEIGHT now : R) (s : State) :
  running s = true ->
  elapsedTime (animate WIDTH HEIGHT now s) = (now - startTime s) / 1000
  /\ startTime (animate WIDTH HEIGHT now s) = startTime s
  /\ running (animate WIDTH HEIGHT now s) = true.
Proof.
  intros Hr; unfold animate, update; rewrite Hr; simpl negb; cbv iota.
  destruct (touches WIDTH HEIGHT (advance now s)).
  - unfold resolveCollision.
    match goal with |- context [if ?b then _ else _] => destruct b end;
      repeat split; simpl; assumption.
  - repeat split; simpl; assumption.
Qed.

(** C8: let the simulation be stopped with elapsed time [e], at time [t],
    and started again after a gap [g].  The tick that [start] runs, reading
    the clock [d] milliseconds after [start] did, computes the elapsed time
    [e + d / 1000], and every later frame at [d'] milliseconds after the
    restart computes [e + d' / 1000]: the gap [g] never shows. *)
Theorem clock_continuity (WIDTH HEIGHT : R) (s : State) (t g d d' : R) :
  let e := elapsedTime s in
  let stopped := stop s in
  let resumed := start WIDTH HEIGHT (t + g) (t + g + d) stopped in
  elapsedTime stopped = e
  /\ elapsedTime resumed = e + d / 1000
  /\ elapsedTime (animate WIDTH HEIGHT (t + g + d') resumed) = e + d' / 1000.
Proof.
  intros e stopped resumed.
  split; [reflexivity |].
  unfold resumed, start; simpl running; simpl negb; cbv iota.
  set (s1 := set_running true _).
  destruct (animate_elapsedTime WIDTH HEIGHT (t + g + d) s1 eq_refl) as (He & Hs & Hr).
  split.
  - rewrite He; unfold s1; simpl; fold e; field.
  - destruct (animate_elapsedTime WIDTH HEIGHT (t + g + d') _ Hr) as (He' & _ & _).
    rewrite He', Hs; unfold s1; simpl; fold e; field.
Qed.

(** ** The radius *)

Section Radius.

Variables WIDTH HEIGHT : R.

Lemma update_ballRadius (now : R) (s : State) :
  ballRadius (update WIDTH HEIGHT now s)
  = if touches WIDTH HEIGHT (advance now s) then grow WIDTH HEIGHT s else ballRadius s.
Proof.
  unfold update.
  destruct (touches WIDTH HEIGHT (advance now s)); [| reflexivity].
  unfold resolveCollision.
  match goal with |- context [if ?b then _ else _] => destruct b end; reflexivity.
Qed.

Lemma update_BALL_GROWTH_RATE (now : R) (s : State) :
  BALL_GROWTH_RATE (update WIDTH HEIGHT now s) = BALL_GROWTH_RATE s.
Proof.
  unfold update.
  destruct (touches WIDTH HEIGHT (advance now s)); [| reflexivity].
  unfold resolveCollision.
  match goal with |- context [if ?b then _ else _] => destruct b end; reflexivity.
Qed.

Lemma grow_Fin (r g : R) (s : State) :
  ballRadius s = Fin r ->
  BALL_GROWTH_RATE s = Fin g ->
  grow WIDTH HEIGHT s
  = Fin (if Rlt_dec r (MAX_BALL_RADIUS WIDTH HEIGHT)
         then Rmin (r * g) (MAX_BALL_RADIUS WIDTH HEIGHT) else r).
Proof.
  intros Hr Hg; unfold grow; rewrite Hr, Hg; simpl; unfold Rltb.
  destruct (Rlt_dec r (MAX_BALL_RADIUS WIDTH HEIGHT)); reflexivity.
Qed.




Lemma radiusInv_eq (s s' : State) :
  ballRadius s' = ballRadius s ->
  BALL_GROWTH_RATE s' = BALL_GROWTH_RATE s ->
  radiusInv WIDTH HEIGHT s -> radiusInv WIDTH HEIGHT s' /\ radiusLe s s'.
Proof.
  intros Hr Hg (r & g & Hr0 & Hg0 & Hb & Hg1); split.
  - exists r, g; rewrite Hr, Hg; auto.
  - exists r, r; rewrite Hr; repeat split; auto; lra.
Qed.

Lemma update_radius (now : R) (s : State) :
  radiusInv WIDTH HEIGHT s ->
  radiusInv WIDTH HEIGHT (update WIDTH HEIGHT now s) /\ radiusLe s (update WIDTH HEIGHT now s).
Proof.
  intros Hinv.
  destruct (touches WIDTH HEIGHT (advance now s)) eqn:Ht.
  - destruct Hinv as (r & g & Hr & Hg & [Hlo Hhi] & Hg1).
    assert (Hr' : ballRadius (update WIDTH HEIGHT now s)
                  = Fin (if Rlt_dec r (MAX_BALL_RADIUS WIDTH HEIGHT)
                         then Rmin (r * g) (MAX_BALL_RADIUS WIDTH HEIGHT) else r))
      by (rewrite update_ballRadius, Ht; apply grow_Fin; assumption).
    assert (Hbounds : let r' := if Rlt_dec r (MAX_BALL_RADIUS WIDTH HEIGHT)
                                then Rmin (r * g) (MAX_BALL_RADIUS WIDTH HEIGHT) else r in
                      r <= r' <= MAX_BALL_RADIUS WIDTH HEIGHT).
    { unfold INITIAL_BALL_RADIUS in Hlo.
      destruct (Rlt_dec r (MAX_BALL_RADIUS WIDTH HEIGHT)) as [Hlt | Hge]; simpl; [| lra].
      split; [apply Rmin_glb; nra | apply Rmin_r]. }
    simpl in Hbounds; split.
    + eexists; exists g; rewrite Hr', update_BALL_GROWTH_RATE.
      split; [reflexivity |]. split; [exact Hg |]. split; [| exact Hg1].
      split; [lra | apply Hbounds].
    + exists r; eexists. split; [exact Hr |]. split; [exact Hr' | apply Hbounds].
  - apply radiusInv_eq;
      [rewrite update_ballRadius, Ht; reflexivity | apply update_BALL_GROWTH_RATE | exact Hinv].
Qed.

Lemma animate_radius (now : R) (s : State) :
  radiusInv WIDTH HEIGHT s ->
  radiusInv WIDTH HEIGHT (animate WIDTH HEIGHT now s) /\ radiusLe s (animate WIDTH HEIGHT now s).
Proof.
  intros Hinv; unfold animate.
  destruct (running s); simpl negb; cbv iota.
  - destruct (update_radius now s Hinv) as [Hi Hl]; split; [| exact Hl].
    destruct Hi as (r & g & Hi); exists r, g; exact Hi.
  - apply radiusInv_eq; auto.
Qed.

Lemma start_radius (now now' : R) (s : State) :
  radiusInv WIDTH HEIGHT s ->
  radiusInv WIDTH HEIGHT (start WIDTH HEIGHT now now' s) /\ radiusLe s (start WIDTH HEIGHT now now' s).
Proof.
  intros Hinv; unfold start.
  set (s1 := set_running true _).
  assert (Hr : ballRadius s1 = ballRadius s)
    by (unfold s1; destruct (running s); reflexivity).
  assert (Hg : BALL_GROWTH_RATE s1 = BALL_GROWTH_RATE s)
    by (unfold s1; destruct (running s); reflexivity).
  destruct (radiusInv_eq s s1 Hr Hg Hinv) as [Hinv1 _].
  destruct (animate_radius now' s1 Hinv1) as [Hi (r & r' & H1 & H2 & H3)].
  split; [exact Hi |].
  exists r, r'; rewrite <- Hr; auto.
Qed.

Lemma step_radius (s : State) (o : Op) :
  INITIAL_BALL_RADIUS <= MAX_BALL_RADIUS WIDTH HEIGHT ->
  radiusInv WIDTH HEIGHT s -> growthOk o ->
  radiusInv WIDTH HEIGHT (step WIDTH HEIGHT s o)
  /\ (isReset o = false -> radiusLe s (step WIDTH HEIGHT s o)).
Proof.
  intros Hmax Hinv Hok.
  assert (Hsame : forall s', ballRadius s' = ballRadius s ->
                             BALL_GROWTH_RATE s' = BALL_GROWTH_RATE s ->
                             radiusInv WIDTH HEIGHT s' /\ (isReset o = false -> radiusLe s s')).
  { intros s' Hr Hg; destruct (radiusInv_eq s s' Hr Hg Hinv); auto. }
  destruct o; simpl step.
  - apply Hsame; unfold startRecording, setupRecording, recorderState; simpl;
      destruct (option_map _ _) as [st|]; try destruct st; reflexivity.
  - apply Hsame; unfold stopRecording;
      destruct (mediaRecorder s); try (destruct (recorderState s) as [st|]; try destruct st);
      reflexivity.
  - split; [| discriminate].
    destruct Hinv as (r & g & _ & Hg & _ & Hg1).
    exists INITIAL_BALL_RADIUS, g; simpl; repeat split; auto; lra.
  - apply Hsame; reflexivity.
  - apply Hsame; reflexivity.
  - apply Hsame; reflexivity.
  - destruct Hok as (x & -> & Hx), Hinv as (r & g & Hr & _ & Hb & _); split.
    + exists r, (1 + x); simpl; repeat split; try tauto; lra.
    + intros _; exists r, r; simpl; repeat split; auto; lra.
  - destruct (start_radius now now' s Hinv); auto.
  - apply Hsame; reflexivity.
  - apply Hsame; unfold handleMouseDown;
      match goal with |- context [if ?b then _ else _] => destruct b end; reflexivity.
  - apply Hsame; unfold handleMouseMove; destruct (isDragging s); reflexivity.
  - unfold handleMouseUp; destruct (isDragging s); [| apply Hsame; reflexivity].
    assert (Hinv' : radiusInv WIDTH HEIGHT (set_isDragging false s)) by exact Hinv.
    destruct (start_radius now now' _ Hinv') as [Hi Hl]; auto.
  - destruct (animate_radius now s Hinv); auto.
  - apply Hsame; unfold deliverData, ondataavailable;
      destruct (nth_error _ _); try destruct (_ <? _)%nat; reflexivity.
  - apply Hsame; unfold deliverStop, onstop;
      destruct (nth_error _ _) as [r|]; try destruct (stopQueued r); simpl;
      try destruct (onRecordingComplete s); reflexivity.
Qed.

Lemma run_radiusInv (ops : list Op) (s : State) :
  INITIAL_BALL_RADIUS <= MAX_BALL_RADIUS WIDTH HEIGHT ->
  radiusInv WIDTH HEIGHT s -> Forall growthOk ops ->
  radiusInv WIDTH HEIGHT (run WIDTH HEIGHT ops s).
Proof.
  intros Hmax; revert s; induction ops as [| o ops IH]; intros s Hinv Hok; [exact Hinv |].
  inversion Hok; subst; simpl.
  apply IH; [apply step_radius |]; assumption.
Qed.

Lemma run_radiusLe (ops : list Op) (s : State) :
  INITIAL_BALL_RADIUS <= MAX_BALL_RADIUS WIDTH HEIGHT ->
  radiusInv WIDTH HEIGHT s -> Forall growthOk ops -> Forall (fun o => isReset o = false) ops ->
  radiusLe s (run WIDTH HEIGHT ops s).
Proof.
  intros Hmax; revert s; induction ops as [| o ops IH]; intros s Hinv Hok Hnr.
  - destruct Hinv as (r & g & Hr & _); exists r, r; repeat split; auto; lra.
  - inversion Hok; subst; inversion Hnr; subst; simpl.
    destruct (step_radius s o Hmax Hinv) as [Hi Hl]; [assumption |].
    destruct (Hl ltac:(assumption)) as (r & r1 & Hr & Hr1 & Hle).
    destruct (IH _ Hi) as (r1' & r2 & Hr1' & Hr2 & Hle'); try assumption.
    rewrite Hr1 in Hr1'; injection Hr1' as <-.
    exists r, r2; repeat split; auto; lra.
Qed.

Lemma constructor_radiusInv (onCollision : bool) (now : R) :
  INITIAL_BALL_RADIUS <= MAX_BALL_RADIUS WIDTH HEIGHT ->
  radiusInv WIDTH HEIGHT (constructor WIDTH HEIGHT onCollision now).
Proof.
  intros Hmax; exists INITIAL_BALL_RADIUS, 1.015; simpl; repeat split; auto; lra.
Qed.

End Radius.

(** C1, as amended: on a canvas where [INITIAL_BALL_RADIUS <= MAX_BALL_RADIUS],
    and as long as every value given to [setBallGrowthRate] is a finite
    number that is not negative, the radius after any sequence of operations
    [ops1] is a finite number of at least [INITIAL_BALL_RADIUS], and after
    any further operations [ops2] with no [reset] among them it is a finite
    number that is at least as large and at most [MAX_BALL_RADIUS]. *)
Theorem radius_monotone_bounded
  (WIDTH HEIGHT : R) (onCollision : bool) (now : R) (ops1 ops2 : list Op) :
  INITIAL_BALL_RADIUS <= MAX_BALL_RADIUS WIDTH HEIGHT ->
  Forall growthOk (ops1 ++ ops2) ->
  Forall (fun o => isReset o = false) ops2 ->
  let s1 := run WIDTH HEIGHT ops1 (constructor WIDTH HEIGHT onCollision now) in
  let s2 := run WIDTH HEIGHT ops2 s1 in
  exists r1 r2 : R,
    ballRadius s1 = Fin r1 /\ ballRadius s2 = Fin r2
    /\ INITIAL_BALL_RADIUS <= r1 /\ r1 <= r2 /\ r2 <= MAX_BALL_RADIUS WIDTH HEIGHT.
Proof.
  intros Hmax Hok Hnr s1 s2.
  apply Forall_app in Hok; destruct Hok as [Hok1 Hok2].
  assert (Hinv1 : radiusInv WIDTH HEIGHT s1)
    by (apply run_radiusInv; [| apply constructor_radiusInv |]; assumption).
  assert (Hinv2 : radiusInv WIDTH HEIGHT s2)
    by (apply run_radiusInv; assumption).
  destruct (run_radiusLe WIDTH HEIGHT ops2 s1 Hmax Hinv1 Hok2 Hnr)
    as (r1 & r2 & Hr1 & Hr2 & Hle).
  destruct Hinv1 as (r1' & _ & Hr1' & _ & [Hlo _] & _).
  destruct Hinv2 as (r2' & _ & Hr2' & _ & [_ Hhi] & _).
  fold s2 in Hr2.
  rewrite Hr1 in Hr1'; injection Hr1' as <-.
  rewrite Hr2 in Hr2'; injection Hr2' as <-.
  exists r1, r2; auto.
Qed.

(** ** A canvas of 1000 by 1000 *)

Lemma CIRCLE_RADIUS_1000 : CIRCLE_RADIUS 1000 1000 = 375.
Proof. unfold CIRCLE_RADIUS; rewrite Rmin_left by lra; lra. Qed.

Lemma MAX_BALL_RADIUS_1000 : MAX_BALL_RADIUS 1000 1000 = 562.5.
Proof. unfold MAX_BALL_RADIUS; rewrite CIRCLE_RADIUS_1000; lra. Qed.

Lemma radius_monotone_bounded_witness :
  exists r1 r2 : R,
    ballRadius (run 1000 1000 [] (constructor 1000 1000 false 0)) = Fin r1
    /\ ballRadius
         (run 1000 1000 [SetBallGrowthRate (Fin 0.015); Start 0 0]
            (run 1000 1000 [] (constructor 1000 1000 false 0))) = Fin r2
    /\ INITIAL_BALL_RADIUS <= r1 /\ r1 <= r2 /\ r2 <= MAX_BALL_RADIUS 1000 1000.
Proof.
  apply (radius_monotone_bounded 1000 1000 false 0 []
           [SetBallGrowthRate (Fin 0.015); Start 0 0]).
  - rewrite MAX_BALL_RADIUS_1000; unfold INITIAL_BALL_RADIUS; lra.
  - simpl app; repeat constructor. exists 0.015; split; [reflexivity | lra].
  - repeat constructor.
Defined.

(** ** The contact angle *)

Lemma sqrt_ratio (a b : R) :
  0 < a -> R_sqrt.sqrt (1 + (b / a)²) = R_sqrt.sqrt (a * a + b * b) / a.
Proof.
  intros Ha; apply sqrt_lem_1.
  - unfold Rsqr; assert (0 <= (b / a) * (b / a)) by nra; lra.
  - apply Rle_mult_inv_pos; [apply sqrt_pos | exact Ha].
  - unfold Rsqr.
    replace (R_sqrt.sqrt (a * a + b * b) / a * (R_sqrt.sqrt (a * a + b * b) / a))
      with ((R_sqrt.sqrt (a * a + b * b) * R_sqrt.sqrt (a * a + b * b)) / (a * a))
      by (field; lra).
    rewrite sqrt_sqrt by nra; field; lra.
Qed.

(** [Math.atan2(b, a)] is the angle of the vector [(a, b)]: its cosine and
    sine are the components of the unit vector along [(a, b)]. *)
Lemma Ratan2_direction (a b : R) :
  R_sqrt.sqrt (a * a + b * b) <> 0 ->
  Rtrigo_def.cos (Ratan2 b a) = a / R_sqrt.sqrt (a * a + b * b)
  /\ Rtrigo_def.sin (Ratan2 b a) = b / R_sqrt.sqrt (a * a + b * b).
Proof.
  intros Hd; set (d := R_sqrt.sqrt (a * a + b * b)) in *.
  assert (Hdpos : 0 < d)
    by (pose proof (sqrt_pos (a * a + b * b)) as Hp; fold d in Hp; lra).
  unfold Ratan2.
  destruct (Rlt_dec 0 a) as [Ha | Ha].
  - rewrite cos_atan, sin_atan, sqrt_ratio by exact Ha; fold d.
    split; field; lra.
  - destruct (Rlt_dec a 0) as [Ha' | Ha'].
    + assert (Hs : R_sqrt.sqrt (1 + (b / a)²) = d / (- a)).
      { replace (b / a) with ((- b) / (- a)) by (field; lra).
        rewrite sqrt_ratio by lra; unfold d; do 2 f_equal; ring. }
      destruct (Rle_dec 0 b).
      * rewrite cos_plus, sin_plus, cos_PI, sin_PI, cos_atan, sin_atan, Hs.
        split; field; lra.
      * rewrite cos_minus, sin_minus, cos_PI, sin_PI, cos_atan, sin_atan, Hs.
        split; field; lra.
    + assert (a = 0) by lra; subst a.
      destruct (Rlt_dec 0 b) as [Hb | Hb].
      * assert (Hdb : d = b)
          by (unfold d; rewrite Rmult_0_l, Rplus_0_l; apply sqrt_square; lra).
        rewrite cos_PI2, sin_PI2; split; [field; lra | rewrite Hdb; field; lra].
      * destruct (Rlt_dec b 0) as [Hb' | Hb'].
        -- assert (Hdb : d = - b).
           { unfold d; rewrite Rmult_0_l, Rplus_0_l.
             replace (b * b) with ((- b) * (- b)) by ring; apply sqrt_square; lra. }
           rewrite cos_neg, sin_neg, cos_PI2, sin_PI2.
           split; [field; lra | rewrite Hdb; field; lra].
        -- assert (b = 0) by lra; subst b; exfalso; apply Hd.
           unfold d; rewrite Rmult_0_l, Rplus_0_l; apply sqrt_0.
Qed.

(** A point at [k] along the angle [theta] from a centre lies [|k|] away. *)
Lemma polar_distance (cx cy k theta : R) :
  R_sqrt.sqrt
    ((cx + k * Rtrigo_def.cos theta - cx) * (cx + k * Rtrigo_def.cos theta - cx)
     + (cy + k * Rtrigo_def.sin theta - cy) * (cy + k * Rtrigo_def.sin theta - cy))
  = Rabs k.
Proof.
  rewrite <- sqrt_Rsqr_abs; f_equal.
  pose proof (sin2_cos2 theta) as Hsc; unfold Rsqr in *.
  transitivity (k * k * (Rtrigo_def.sin theta * Rtrigo_def.sin theta
                         + Rtrigo_def.cos theta * Rtrigo_def.cos theta)); [ring |].
  rewrite Hsc; ring.
Qed.

(** ** The collision test and its resolution *)

Section Collision.

Variables WIDTH HEIGHT : R.

Lemma offset_Fin (bx by' : R) (s : State) :
  ballCenter s = (Fin bx, Fin by') ->
  offset WIDTH HEIGHT s = (Fin (bx - WIDTH / 2), Fin (by' - HEIGHT / 2)).
Proof. intros Hc; unfold offset; rewrite Hc; reflexivity. Qed.

Lemma touches_Fin (bx by' r : R) (s : State) :
  ballCenter s = (Fin bx, Fin by') ->
  ballRadius s = Fin r ->
  touches WIDTH HEIGHT s
  = Rleb (CIRCLE_RADIUS WIDTH HEIGHT - r)
      (R_sqrt.sqrt ((bx - WIDTH / 2) * (bx - WIDTH / 2)
                    + (by' - HEIGHT / 2) * (by' - HEIGHT / 2))).
Proof.
  intros Hc Hr; unfold touches.
  rewrite (offset_Fin bx by' s Hc), norm_Fin, Hr; reflexivity.
Qed.

(** The test only succeeds on finite numbers. *)
Lemma touches_finite (s : State) :
  touches WIDTH HEIGHT s = true ->
  exists bx by' r : R,
    ballCenter s = (Fin bx, Fin by') /\ ballRadius s = Fin r
    /\ CIRCLE_RADIUS WIDTH HEIGHT - r
       <= R_sqrt.sqrt ((bx - WIDTH / 2) * (bx - WIDTH / 2)
                       + (by' - HEIGHT / 2) * (by' - HEIGHT / 2)).
Proof.
  intros Ht.
  destruct (ballCenter s) as [[bx|] [by'|]] eqn:Hc;
    destruct (ballRadius s) as [r|] eqn:Hr;
    try (unfold touches, offset, norm in Ht; rewrite Hc, Hr in Ht; simpl in Ht;
         try destruct (Rlt_dec _ 0); discriminate).
  rewrite (touches_Fin bx by' r s Hc Hr) in Ht.
  exists bx, by', r; repeat split; apply Rleb_spec, Ht.
Qed.


Lemma update_ballCenter_touch (now : R) (s : State) :
  touches WIDTH HEIGHT (advance now s) = true ->
  ballCenter (update WIDTH HEIGHT now s)
  = (add (Fin (WIDTH / 2))
       (mul (sub (Fin (CIRCLE_RADIUS WIDTH HEIGHT)) (ballRadius (update WIDTH HEIGHT now s)))
          (cos (contactAngle WIDTH HEIGHT now s))),
     add (Fin (HEIGHT / 2))
       (mul (sub (Fin (CIRCLE_RADIUS WIDTH HEIGHT)) (ballRadius (update WIDTH HEIGHT now s)))
          (sin (contactAngle WIDTH HEIGHT now s)))).
Proof.
  intros Ht; unfold update; rewrite Ht; unfold resolveCollision.
  match goal with |- context [if ?b then _ else _] => destruct b end; reflexivity.
Qed.

(** Where a resolved collision leaves the ball. *)
Lemma reposition (now : R) (s : State) (r' : R) :
  touches WIDTH HEIGHT (advance now s) = true ->
  ballRadius (update WIDTH HEIGHT now s) = Fin r' ->
  exists theta : R,
    contactAngle WIDTH HEIGHT now s = Fin theta
    /\ ballCenter (update WIDTH HEIGHT now s)
       = (Fin (WIDTH / 2 + (CIRCLE_RADIUS WIDTH HEIGHT - r') * Rtrigo_def.cos theta),
          Fin (HEIGHT / 2 + (CIRCLE_RADIUS WIDTH HEIGHT - r') * Rtrigo_def.sin theta))
    /\ norm (offset WIDTH HEIGHT (update WIDTH HEIGHT now s))
       = Fin (Rabs (CIRCLE_RADIUS WIDTH HEIGHT - r')).
Proof.
  intros Ht Hr'.
  destruct (touches_finite _ Ht) as (bx & by' & r & Hc & _ & _).
  assert (Ha : contactAngle WIDTH HEIGHT now s
               = Fin (Ratan2 (by' - HEIGHT / 2) (bx - WIDTH / 2)))
    by (unfold contactAngle; rewrite (offset_Fin bx by' _ Hc); reflexivity).
  assert (Hc' := update_ballCenter_touch now s Ht).
  rewrite Hr', Ha in Hc'; simpl in Hc'.
  eexists; split; [exact Ha |]; split; [exact Hc' |].
  rewrite (offset_Fin _ _ _ Hc'), norm_Fin; f_equal; apply polar_distance.
Qed.

End Collision.

(** C3, as amended: after a tick in which a collision was resolved and that
    leaves a finite radius [r'], the ball's centre is at
    [circleCenter + (CIRCLE_RADIUS - r') * (cos theta, sin theta)], [theta]
    being the contact angle (the direction from the circle's centre to the
    ball's centre after integration), so its distance from the circle's
    centre is [|CIRCLE_RADIUS - r'|]: that is [CIRCLE_RADIUS - r'] when
    [r' <= CIRCLE_RADIUS], and [r' - CIRCLE_RADIUS] when the ball has
    outgrown the circle. *)
Theorem collision_reposition (WIDTH HEIGHT now : R) (s : State) (r' : R) :
  touches WIDTH HEIGHT (advance now s) = true ->
  ballRadius (update WIDTH HEIGHT now s) = Fin r' ->
  let s' := update WIDTH HEIGHT now s in
  exists theta : R,
    contactAngle WIDTH HEIGHT now s = Fin theta
    /\ ballCenter s'
       = (Fin (WIDTH / 2 + (CIRCLE_RADIUS WIDTH HEIGHT - r') * Rtrigo_def.cos theta),
          Fin (HEIGHT / 2 + (CIRCLE_RADIUS WIDTH HEIGHT - r') * Rtrigo_def.sin theta))
    /\ norm (offset WIDTH HEIGHT s') = Fin (Rabs (CIRCLE_RADIUS WIDTH HEIGHT - r'))
    /\ (r' <= CIRCLE_RADIUS WIDTH HEIGHT ->
        norm (offset WIDTH HEIGHT s') = Fin (CIRCLE_RADIUS WIDTH HEIGHT - r'))
    /\ (CIRCLE_RADIUS WIDTH HEIGHT < r' ->
        norm (offset WIDTH HEIGHT s') = Fin (r' - CIRCLE_RADIUS WIDTH HEIGHT))
    /\ (forall dx dy : R,
          offset WIDTH HEIGHT (advance now s) = (Fin dx, Fin dy) ->
          R_sqrt.sqrt (dx * dx + dy * dy) <> 0 ->
          Rtrigo_def.cos theta = dx / R_sqrt.sqrt (dx * dx + dy * dy)
          /\ Rtrigo_def.sin theta = dy / R_sqrt.sqrt (dx * dx + dy * dy)).
Proof.
  intros Ht Hr'; cbv zeta.
  destruct (reposition WIDTH HEIGHT now s r' Ht Hr') as (theta & Ha & Hc & Hn).
  exists theta.
  split; [exact Ha |]. split; [exact Hc |]. split; [exact Hn |].
  split; [| split].
  - intros Hle; rewrite Hn, Rabs_right by lra; reflexivity.
  - intros Hlt; rewrite Hn, Rabs_left by lra; f_equal; ring.
  - intros dx dy Hd Hnz.
    unfold contactAngle in Ha; rewrite Hd in Ha; simpl in Ha.
    injection Ha as <-; apply Ratan2_direction; assumption.
Qed.


(** ** Dragging the ball to the wall

    On the canvas of 1000 by 1000, the ball is pressed where [reset] put
    it, moved to [(500, 900)], beyond the wall, and released: the tick that
    the release runs resolves a collision. *)

Lemma run_cons (WIDTH HEIGHT : R) (o : Op) (ops : list Op) (s : State) :
  run WIDTH HEIGHT (o :: ops) s = run WIDTH HEIGHT ops (step WIDTH HEIGHT s o).
Proof. reflexivity. Qed.

(** A frame on a running simulation is a tick; [draw] and the request for
    the next frame leave the ball and the histories as the tick left them. *)
Lemma animate_running (WIDTH HEIGHT now : R) (s : State) :
  running s = true ->
  ballRadius (animate WIDTH HEIGHT now s) = ballRadius (update WIDTH HEIGHT now s)
  /\ ballCenter (animate WIDTH HEIGHT now s) = ballCenter (update WIDTH HEIGHT now s)
  /\ ballVelocity (animate WIDTH HEIGHT now s) = ballVelocity (update WIDTH HEIGHT now s)
  /\ collisionPoints (animate WIDTH HEIGHT now s)
     = collisionPoints (update WIDTH HEIGHT now s).
Proof. intros Hr; unfold animate; rewrite Hr; repeat split; reflexivity. Qed.

Lemma offset_ext (WIDTH HEIGHT : R) (s s' : State) :
  ballCenter s = ballCenter s' -> offset WIDTH HEIGHT s = offset WIDTH HEIGHT s'.
Proof. intros Hc; unfold offset; rewrite Hc; reflexivity. Qed.

Lemma dragToWall_run (s : State) :
  ballCenter s = (Fin (1000 / 2), Fin (1000 / 2.7)) ->
  ballRadius s = Fin INITIAL_BALL_RADIUS ->
  run 1000 1000 dragToWall s = animate 1000 1000 0 (atWall s).
Proof.
  intros Hc Hr; unfold dragToWall, run, fold_left, step.
  rewrite (handleMouseDown_hit 500 370 (1000 / 2) (1000 / 2.7) INITIAL_BALL_RADIUS s Hc Hr);
    [| unfold INITIAL_BALL_RADIUS; lra
     | unfold INITIAL_BALL_RADIUS;
       assert (-1 <= 370 - 1000 / 2.7 <= 0) by lra;
       replace (500 - 1000 / 2) with 0 by lra; nra].
  unfold handleMouseMove; simpl isDragging; cbv iota.
  unfold handleMouseUp; simpl isDragging; cbv iota.
  unfold start; simpl running; simpl negb; cbv iota.
  reflexivity.
Qed.

Lemma atWall_touches (g k r : R) (s : State) :
  GRAVITY s = Fin g -> VELOCITY_DECAY s = Fin k -> ballRadius s = Fin r ->
  0 <= g * k -> 0 <= r ->
  touches 1000 1000 (advance 0 (atWall s)) = true.
Proof.
  intros Hg Hk Hr Hgk Hr0.
  assert (Hc : ballCenter (advance 0 (atWall s))
               = (Fin (500 + 0 * k), Fin (900 + (0 + g) * k)))
    by (unfold advance, integrate; simpl; rewrite Hg, Hk; reflexivity).
  rewrite (touches_Fin 1000 1000 _ _ r _ Hc Hr), CIRCLE_RADIUS_1000.
  apply Rleb_true, sqrt_ge_component; nra.
Qed.

Lemma atWall_update_radius (g k q : R) (s : State) :
  GRAVITY s = Fin g -> VELOCITY_DECAY s = Fin k -> 0 <= g * k ->
  ballRadius s = Fin INITIAL_BALL_RADIUS ->
  BALL_GROWTH_RATE s = Fin q ->
  ballRadius (update 1000 1000 0 (atWall s)) = Fin (Rmin (5 * q) 562.5).
Proof.
  intros Hg Hk Hgk Hr Hq.
  rewrite update_ballRadius.
  rewrite (atWall_touches g k INITIAL_BALL_RADIUS s Hg Hk Hr Hgk)
    by (unfold INITIAL_BALL_RADIUS; lra).
  rewrite (grow_Fin 1000 1000 INITIAL_BALL_RADIUS q (atWall s) Hr Hq).
  rewrite MAX_BALL_RADIUS_1000; unfold INITIAL_BALL_RADIUS.
  destruct (Rlt_dec 5 562.5); [reflexivity | lra].
Qed.


Lemma dragToWall_tick (s : State) :
  ballCenter s = (Fin (1000 / 2), Fin (1000 / 2.7)) ->
  ballRadius s = Fin INITIAL_BALL_RADIUS ->
  ballRadius (run 1000 1000 dragToWall s) = ballRadius (update 1000 1000 0 (atWall s))
  /\ ballCenter (run 1000 1000 dragToWall s) = ballCenter (update 1000 1000 0 (atWall s))
  /\ ballVelocity (run 1000 1000 dragToWall s)
     = ballVelocity (update 1000 1000 0 (atWall s))
  /\ collisionPoints (run 1000 1000 dragToWall s)
     = collisionPoints (update 1000 1000 0 (atWall s)).
Proof.
  intros Hc Hr; rewrite (dragToWall_run s Hc Hr).
  apply animate_running; reflexivity.
Qed.

(** C1, counterexample: with the growth rate set through
    [setBallGrowthRate(-0.5)], the first collision halves the radius, from
    [INITIAL_BALL_RADIUS = 5] to 2.5, with no [reset] in between. *)
Lemma radius_shrinks_counterexample :
  let ops := [SetBallGrowthRate (Fin (-0.5)); MouseDown (Fin 500) (Fin 370);
              MouseMove (Fin 500) (Fin 900); MouseUp 0 0] in
  Forall (fun o => isReset o = false) ops
  /\ ballRadius (constructor 1000 1000 false 0) = Fin 5
  /\ ballRadius (run 1000 1000 ops (constructor 1000 1000 false 0)) = Fin 2.5
  /\ 2.5 < INITIAL_BALL_RADIUS.
Proof.
  cbv zeta; split; [repeat constructor |]. split; [reflexivity |].
  split; [| unfold INITIAL_BALL_RADIUS; lra].
  rewrite run_cons; fold dragToWall.
  destruct (dragToWall_tick
              (step 1000 1000 (constructor 1000 1000 false 0)
                 (SetBallGrowthRate (Fin (-0.5)))) eq_refl eq_refl) as (-> & _).
  rewrite (atWall_update_radius 0.4 0.9995 (1 + -0.5));
    [| reflexivity | reflexivity | lra | reflexivity | reflexivity].
  rewrite Rmin_left by lra; f_equal; lra.
Qed.

(** C3, counterexample: with the growth rate set through
    [setBallGrowthRate(99)], the first collision takes the radius to 500 on
    a circle of radius 375; the ball's centre ends 125 away from the
    circle's centre, whereas [CIRCLE_RADIUS - ballRadius] is -125. *)
Lemma reposition_counterexample :
  let ops := [SetBallGrowthRate (Fin 99); MouseDown (Fin 500) (Fin 370);
              MouseMove (Fin 500) (Fin 900); MouseUp 0 0] in
  let s' := run 1000 1000 ops (constructor 1000 1000 false 0) in
  length (collisionPoints s') = 1%nat
  /\ norm (offset 1000 1000 s') = Fin 125
  /\ sub (Fin (CIRCLE_RADIUS 1000 1000)) (ballRadius s') = Fin (-125).
Proof.
  cbv zeta; rewrite run_cons; fold dragToWall.
  set (s := step 1000 1000 (constructor 1000 1000 false 0) (SetBallGrowthRate (Fin 99))).
  destruct (dragToWall_tick s eq_refl eq_refl) as (Hrad & Hcen & _ & Hpts).
  assert (Ht : touches 1000 1000 (advance 0 (atWall s)) = true)
    by (apply (atWall_touches 0.4 0.9995 5); [reflexivity | reflexivity | reflexivity | lra | lra]).
  assert (Hr : ballRadius (update 1000 1000 0 (atWall s)) = Fin 500).
  { rewrite (atWall_update_radius 0.4 0.9995 (1 + 99));
      [| reflexivity | reflexivity | lra | reflexivity | reflexivity].
    rewrite Rmin_left by lra; f_equal; lra. }
  destruct (reposition 1000 1000 0 (atWall s) 500 Ht Hr) as (theta & _ & _ & Hn).
  rewrite (offset_ext 1000 1000 _ _ Hcen), Hrad, Hpts, Hn, Hr.
  rewrite update_collisionPoints, Ht, CIRCLE_RADIUS_1000.
  split; [reflexivity |].
  split; [rewrite Rabs_left by lra | simpl]; f_equal; lra.
Qed.

Lemma collision_reposition_witness :
  exists theta : R,
    ballCenter (update 1000 1000 0 (atWall fresh))
    = (Fin (1000 / 2 + (CIRCLE_RADIUS 1000 1000 - 5.075) * Rtrigo_def.cos theta),
       Fin (1000 / 2 + (CIRCLE_RADIUS 1000 1000 - 5.075) * Rtrigo_def.sin theta))
    /\ norm (offset 1000 1000 (update 1000 1000 0 (atWall fresh)))
       = Fin (CIRCLE_RADIUS 1000 1000 - 5.075).
Proof.
  assert (Ht : touches 1000 1000 (advance 0 (atWall fresh)) = true)
    by (apply (atWall_touches 0.4 0.9995 5); [reflexivity | reflexivity | reflexivity | lra | lra]).
  assert (Hr : ballRadius (update 1000 1000 0 (atWall fresh)) = Fin 5.075).
  { rewrite (atWall_update_radius 0.4 0.9995 1.015);
      [| reflexivity | reflexivity | lra | reflexivity | reflexivity].
    rewrite Rmin_left by lra; f_equal; lra. }
  destruct (collision_reposition 1000 1000 0 (atWall fresh) 5.075 Ht Hr)
    as (theta & _ & Hc & _ & Hle & _).
  exists theta; split; [exact Hc |].
  apply Hle; rewrite CIRCLE_RADIUS_1000; lra.
Defined.


(** ** Reflection and the speed floor *)

Lemma resolveCollision_ballVelocity (WIDTH HEIGHT : R) (s : State) :
  ballVelocity (resolveCollision WIDTH HEIGHT s)
  = enforceMinVelocity
      (scale
         (reflect (ballVelocity s)
            (div (fst (offset WIDTH HEIGHT s)) (norm (offset WIDTH HEIGHT s)),
             div (snd (offset WIDTH HEIGHT s)) (norm (offset WIDTH HEIGHT s))))
         (VELOCITY_INCREASE_FACTOR s)).
Proof.
  unfold resolveCollision.
  match goal with |- context [if ?b then _ else _] => destruct b end; reflexivity.
Qed.


Lemma reflect_Fin (vx vy nx ny : R) :
  reflect (Fin vx, Fin vy) (Fin nx, Fin ny)
  = (Fin ((vx - 2 * (vx * nx + vy * ny) * nx) * 0.95),
     Fin ((vy - 2 * (vx * nx + vy * ny) * ny) * 0.95)).
Proof. reflexivity. Qed.

Lemma unit_normal (dx dy : R) :
  R_sqrt.sqrt (dx * dx + dy * dy) <> 0 ->
  (dx / R_sqrt.sqrt (dx * dx + dy * dy)) * (dx / R_sqrt.sqrt (dx * dx + dy * dy))
  + (dy / R_sqrt.sqrt (dx * dx + dy * dy)) * (dy / R_sqrt.sqrt (dx * dx + dy * dy)) = 1.
Proof.
  intros Hd; set (d := R_sqrt.sqrt (dx * dx + dy * dy)) in *.
  assert (Hdd : d * d = dx * dx + dy * dy) by (apply sqrt_sqrt; nra).
  transitivity ((dx * dx + dy * dy) / (d * d)); [field; exact Hd |].
  rewrite <- Hdd; field; exact Hd.
Qed.



Lemma update_touch (WIDTH HEIGHT now : R) (s : State) :
  touches WIDTH HEIGHT (advance now s) = true ->
  update WIDTH HEIGHT now s = resolveCollision WIDTH HEIGHT (advance now s).
Proof. intros Ht; unfold update; rewrite Ht; reflexivity. Qed.

(** A velocity that is not zero comes out of the floor with a speed of at
    least 1, and of exactly 1, along the same direction, when it went in
    slower. *)
Lemma enforceMinVelocity_floor (vx vy : R) :
  R_sqrt.sqrt (vx * vx + vy * vy) <> 0 ->
  exists wx wy : R,
    enforceMinVelocity (Fin vx, Fin vy) = (Fin wx, Fin wy)
    /\ 1 <= R_sqrt.sqrt (wx * wx + wy * wy)
    /\ (R_sqrt.sqrt (vx * vx + vy * vy) < 1 ->
        wx = vx * (1 / R_sqrt.sqrt (vx * vx + vy * vy))
        /\ wy = vy * (1 / R_sqrt.sqrt (vx * vx + vy * vy))
        /\ R_sqrt.sqrt (wx * wx + wy * wy) = 1)
    /\ (1 <= R_sqrt.sqrt (vx * vx + vy * vy) -> wx = vx /\ wy = vy).
Proof.
  intros Hv; set (v := R_sqrt.sqrt (vx * vx + vy * vy)) in *.
  assert (Hvv : v * v = vx * vx + vy * vy) by (apply sqrt_sqrt; nra).
  unfold enforceMinVelocity; rewrite norm_Fin; fold v; simpl ltb.
  destruct (Rlt_dec v 1) as [Hlt | Hge].
  - rewrite Rltb_true by lra.
    replace 1.0 with 1 by lra.
    rewrite div_Fin by exact Hv; unfold scale; simpl.
    assert (Hone : R_sqrt.sqrt (vx * (1 / v) * (vx * (1 / v)) + vy * (1 / v) * (vy * (1 / v)))
                   = 1).
    { replace (vx * (1 / v) * (vx * (1 / v)) + vy * (1 / v) * (vy * (1 / v)))
        with ((vx * vx + vy * vy) / (v * v)) by (field; exact Hv).
      rewrite <- Hvv; replace (v * v / (v * v)) with 1 by (field; exact Hv).
      apply sqrt_1. }
    do 2 eexists; split; [reflexivity |].
    split; [rewrite Hone; lra |]. split; [auto | lra].
  - rewrite Rltb_false by lra.
    exists vx, vy; split; [reflexivity |]. fold v.
    split; [lra |]. split; [lra | auto].
Qed.

(** A velocity of zero comes out of the floor as [NaN]: the scale is
    [1 / 0]. *)
Lemma enforceMinVelocity_stalled (vx vy : R) :
  vx = 0 -> vy = 0 -> enforceMinVelocity (Fin vx, Fin vy) = (NaN, NaN).
Proof.
  intros -> ->; unfold enforceMinVelocity; rewrite norm_Fin.
  replace (0 * 0 + 0 * 0) with 0 by ring; rewrite sqrt_0; simpl ltb.
  rewrite Rltb_true by lra.
  replace 1.0 with 1 by lra.
  rewrite div_zero; reflexivity.
Qed.

Lemma stalled_bounce (vx vy nx ny f : R) :
  vx = 0 -> vy = 0 ->
  enforceMinVelocity (scale (reflect (Fin vx, Fin vy) (Fin nx, Fin ny)) (Fin f))
  = (NaN, NaN).
Proof.
  intros -> ->; rewrite reflect_Fin; unfold scale; simpl.
  apply enforceMinVelocity_stalled; ring.
Qed.

Lemma leb_NaN_r (a : num) : leb a NaN = false.
Proof. destruct a; reflexivity. Qed.

Lemma lift2_NaN_r (f : R -> R -> R) (a : num) : lift2 f a NaN = NaN.
Proof. destruct a; reflexivity. Qed.

(** Once the velocity is [NaN], the next tick loses the ball's centre, and
    the collision test never succeeds again. *)
Lemma nan_velocity_tick (WIDTH HEIGHT now : R) (s : State) :
  ballVelocity s = (NaN, NaN) ->
  ballCenter (update WIDTH HEIGHT now s) = (NaN, NaN)
  /\ ballVelocity (update WIDTH HEIGHT now s) = (NaN, NaN).
Proof.
  intros Hv.
  assert (Hc : ballCenter (advance now s) = (NaN, NaN)).
  { unfold advance, integrate; simpl; rewrite Hv; simpl.
    unfold add; rewrite !lift2_NaN_r; reflexivity. }
  assert (Hv' : ballVelocity (advance now s) = (NaN, NaN))
    by (unfold advance, integrate; simpl; rewrite Hv; reflexivity).
  assert (Ht : touches WIDTH HEIGHT (advance now s) = false)
    by (unfold touches, offset, norm, geb; rewrite Hc; simpl; apply leb_NaN_r).
  unfold update; rewrite Ht; auto.
Qed.

(** C4, failing input: with gravity set to 0, the ball is dragged beyond
    the wall and released.  The release's tick resolves a collision with a
    velocity of zero; the floor divides by the zero speed and the velocity
    becomes [NaN], which is not at least 1; the next tick loses the centre. *)
Theorem speed_floor_stall :
  let ops := [SetGravity (Fin 0); MouseDown (Fin 500) (Fin 370);
              MouseMove (Fin 500) (Fin 900); MouseUp 0 0] in
  let s' := run 1000 1000 ops (constructor 1000 1000 false 0) in
  length (collisionPoints s') = 1%nat
  /\ ballVelocity s' = (NaN, NaN)
  /\ geb (norm (ballVelocity s')) (Fin 1) = false
  /\ forall t : R, ballCenter (update 1000 1000 t s') = (NaN, NaN).
Proof.
  cbv zeta; rewrite run_cons; fold dragToWall.
  set (s := step 1000 1000 (constructor 1000 1000 false 0) (SetGravity (Fin 0))).
  destruct (dragToWall_tick s eq_refl eq_refl) as (_ & _ & Hvel & Hpts).
  assert (Ht : touches 1000 1000 (advance 0 (atWall s)) = true)
    by (apply (atWall_touches 0 0.9995 5); [reflexivity | reflexivity | reflexivity | lra | lra]).
  assert (Hc : ballCenter (advance 0 (atWall s))
               = (Fin (500 + 0 * 0.9995), Fin (900 + (0 + 0) * 0.9995))) by reflexivity.
  assert (Hv : ballVelocity (advance 0 (atWall s))
               = (Fin (0 * 0.9995), Fin ((0 + 0) * 0.9995))) by reflexivity.
  assert (Hf : VELOCITY_INCREASE_FACTOR (advance 0 (atWall s)) = Fin 1.02) by reflexivity.
  assert (Hnan : ballVelocity (run 1000 1000 dragToWall s) = (NaN, NaN)).
  { rewrite Hvel, (update_touch 1000 1000 0 (atWall s) Ht).
    rewrite resolveCollision_ballVelocity, Hv, Hf, (offset_Fin 1000 1000 _ _ _ Hc).
    rewrite norm_Fin; simpl fst; simpl snd.
    rewrite !div_Fin
      by (replace (500 + 0 * 0.9995 - 1000 / 2) with 0 by lra;
          replace (900 + (0 + 0) * 0.9995 - 1000 / 2) with 400 by lra;
          replace (0 * 0 + 400 * 400) with (400 * 400) by ring;
          rewrite sqrt_square; lra).
    apply stalled_bounce; ring. }
  split; [rewrite Hpts, update_collisionPoints, Ht; reflexivity |].
  split; [exact Hnan |].
  split; [rewrite Hnan; reflexivity |].
  intros t; apply (nan_velocity_tick 1000 1000 t _ Hnan).
Qed.

(** ** Recording *)

(** [startRecording] never finds its own guard false: the recorder it tests
    is the one [setupRecording] has just created. *)
Lemma startRecording_restarts (onComplete : option Callback) (s : State) :
  mediaRecorder (startRecording onComplete s) = Some (length (recorders s))
  /\ chunks (startRecording onComplete s) = []
  /\ onRecordingComplete (startRecording onComplete s) = onComplete.
Proof.
  unfold startRecording, recorderState, setupRecording; simpl.
  rewrite nth_error_app2, Nat.sub_diag by lia; simpl.
  repeat split.
Qed.

(** C2, failing input: a capture is started with callback 1, and
    [startRecording] is called again with callback 2 before any
    [stopRecording].  The second call is no no-op: it creates and starts a
    second recorder and replaces the callback.  [stopRecording] then stops
    the second recorder only: callback 2 is called once, with what the
    second recorder delivers; callback 1 is never called and the first
    recorder goes on recording. *)
Theorem startRecording_while_capturing :
  let s0 := constructor 1000 1000 false 0 in
  let s1 := run 1000 1000 [StartRecording (Some 1%nat)] s0 in
  let s2 := run 1000 1000 [StartRecording (Some 2%nat)] s1 in
  let s3 := run 1000 1000
              [StopRecording; DataAvailable 1 [7%nat; 8%nat]; Stopped 1] s2 in
  (recorderState s1 = Some recording
   /\ mediaRecorder s1 = Some 0%nat
   /\ onRecordingComplete s1 = Some 1%nat
   /\ recorders s1 = [mkMediaRecorder recording false])
  /\ (recorderState s2 = Some recording
      /\ mediaRecorder s2 = Some 1%nat
      /\ onRecordingComplete s2 = Some 2%nat
      /\ recorders s2
         = [mkMediaRecorder recording false; mkMediaRecorder recording false])
  /\ (completed s3 = [(2%nat, [7%nat; 8%nat])]
      /\ recorders s3
         = [mkMediaRecorder recording false; mkMediaRecorder inactive false]).
Proof. cbv zeta; repeat split. Qed.

Lemma drag_move_frame_witness :
  let s := handleMouseDown (Fin 500) (Fin 370) fresh in
  let s' := handleMouseMove (Fin 500) (Fin 900) s in
  ballCenter s' = (Fin 500, Fin 900)
  /\ ballVelocity s' = (Fin 0, Fin 0)
  /\ ballRadius s' = ballRadius s
  /\ previousPositions s' = previousPositions s
  /\ collisionPoints s' = collisionPoints s
  /\ isDragging s' = true.
Proof.
  apply (drag_move_frame (Fin 500) (Fin 900) (handleMouseDown (Fin 500) (Fin 370) fresh)).
  rewrite (handleMouseDown_hit 500 370 (1000 / 2) (1000 / 2.7) INITIAL_BALL_RADIUS fresh
             eq_refl eq_refl);
    [reflexivity
    | unfold INITIAL_BALL_RADIUS; lra
    | unfold INITIAL_BALL_RADIUS;
      assert (-1 <= 370 - 1000 / 2.7 <= 0) by lra;
      replace (500 - 1000 / 2) with 0 by lra; nra].
Defined.

(** * Further properties of the code *)

(** ** Reflection and the speed after a collision *)
Lemma sqrt_scaled (k x : R) : 0 <= k -> 0 <= x -> R_sqrt.sqrt (k * k * x) = k * R_sqrt.sqrt x.
Proof.
  intros Hk Hx. rewrite sqrt_mult by nra. rewrite sqrt_square by exact Hk. reflexivity.
Qed.

Lemma reflect_isometry (vx vy nx ny : R) :
  nx * nx + ny * ny = 1 ->
  exists wx wy : R,
    reflect (Fin vx, Fin vy) (Fin nx, Fin ny) = (Fin wx, Fin wy)
    /\ R_sqrt.sqrt (wx * wx + wy * wy) = 0.95 * R_sqrt.sqrt (vx * vx + vy * vy)
    /\ wx * nx + wy * ny = - (0.95 * (vx * nx + vy * ny))
    /\ wx * ny - wy * nx = 0.95 * (vx * ny - vy * nx).
Proof.
  intros Hn. rewrite reflect_Fin. do 2 eexists. split; [reflexivity |].
  set (d := vx * nx + vy * ny).
  split; [| split].
  - replace ((vx - 2 * d * nx) * 0.95 * ((vx - 2 * d * nx) * 0.95)
             + (vy - 2 * d * ny) * 0.95 * ((vy - 2 * d * ny) * 0.95))
      with (0.95 * 0.95 * (vx * vx + vy * vy)).
    + apply sqrt_scaled; nra.
    + unfold d.
      transitivity (0.95 * 0.95 * (vx * vx + vy * vy
                    + 4 * (vx * nx + vy * ny) * (vx * nx + vy * ny) * (nx * nx + ny * ny - 1)));
        [rewrite Hn; ring | ring].
  - unfold d.
    transitivity (0.95 * ((vx * nx + vy * ny) * (1 - 2 * (nx * nx + ny * ny)))); [ring |].
    rewrite Hn; ring.
  - unfold d; ring.
Qed.

(** X1: reflection about a unit normal [n] multiplies the speed by exactly
    0.95: the component of the velocity along [n] is reversed and scaled by
    0.95, the component across [n] is only scaled by 0.95. *)
Theorem reflect_unit_normal (vx vy nx ny : R) :
  nx * nx + ny * ny = 1 ->
  exists wx wy : R,
    reflect (Fin vx, Fin vy) (Fin nx, Fin ny) = (Fin wx, Fin wy)
    /\ R_sqrt.sqrt (wx * wx + wy * wy) = 0.95 * R_sqrt.sqrt (vx * vx + vy * vy)
    /\ wx * nx + wy * ny = - (0.95 * (vx * nx + vy * ny))
    /\ wx * ny - wy * nx = 0.95 * (vx * ny - vy * nx).
Proof. exact (reflect_isometry vx vy nx ny). Qed.

Lemma reflect_unit_normal_witness :
  exists wx wy : R,
    reflect (Fin 3, Fin 4) (Fin 0, Fin 1) = (Fin wx, Fin wy)
    /\ R_sqrt.sqrt (wx * wx + wy * wy) = 0.95 * R_sqrt.sqrt (3 * 3 + 4 * 4)
    /\ wx * 0 + wy * 1 = - (0.95 * (3 * 0 + 4 * 1))
    /\ wx * 1 - wy * 0 = 0.95 * (3 * 1 - 4 * 0).
Proof. apply (reflect_unit_normal 3 4 0 1); lra. Defined.

Lemma norm_scaled (a b k : R) :
  R_sqrt.sqrt (a * k * (a * k) + b * k * (b * k)) = Rabs k * R_sqrt.sqrt (a * a + b * b).
Proof.
  replace (a * k * (a * k) + b * k * (b * k)) with (Rabs k * Rabs k * (a * a + b * b)).
  - apply sqrt_scaled; [apply Rabs_pos | nra].
  - replace (Rabs k * Rabs k) with (k * k); [ring |].
    unfold Rabs; destruct (Rcase_abs k); ring.
Qed.

(** X2: a tick that resolves a collision at a non-zero distance, with a
    finite velocity [v] after integration and a finite factor [f], leaves
    the speed [max 1 (0.95 * |f| * |v|)], provided that product is not
    zero. *)
Theorem collision_speed
  (WIDTH HEIGHT now : R) (s : State) (bx by' vx vy f : R) :
  touches WIDTH HEIGHT (advance now s) = true ->
  ballCenter (advance now s) = (Fin bx, Fin by') ->
  ballVelocity (advance now s) = (Fin vx, Fin vy) ->
  VELOCITY_INCREASE_FACTOR s = Fin f ->
  R_sqrt.sqrt ((bx - WIDTH / 2) * (bx - WIDTH / 2)
               + (by' - HEIGHT / 2) * (by' - HEIGHT / 2)) <> 0 ->
  0.95 * Rabs f * R_sqrt.sqrt (vx * vx + vy * vy) <> 0 ->
  norm (ballVelocity (update WIDTH HEIGHT now s))
  = Fin (Rmax 1 (0.95 * Rabs f * R_sqrt.sqrt (vx * vx + vy * vy))).
Proof.
  intros Ht Hc Hv Hf Hd Hu.
  set (dx := bx - WIDTH / 2) in *; set (dy := by' - HEIGHT / 2) in *.
  set (d := R_sqrt.sqrt (dx * dx + dy * dy)) in *.
  assert (Hf1 : VELOCITY_INCREASE_FACTOR (advance now s) = Fin f) by exact Hf.
  rewrite (update_touch WIDTH HEIGHT now s Ht), resolveCollision_ballVelocity.
  rewrite Hv, Hf1, (offset_Fin WIDTH HEIGHT bx by' _ Hc), norm_Fin.
  fold dx dy d; simpl fst; simpl snd; rewrite !div_Fin by exact Hd.
  destruct (reflect_isometry vx vy (dx / d) (dy / d) (unit_normal dx dy Hd))
    as (wx & wy & -> & Hw & _).
  unfold scale; simpl.
  assert (Hs : R_sqrt.sqrt (wx * f * (wx * f) + wy * f * (wy * f))
               = 0.95 * Rabs f * R_sqrt.sqrt (vx * vx + vy * vy))
    by (rewrite norm_scaled, Hw; ring).
  set (u := 0.95 * Rabs f * R_sqrt.sqrt (vx * vx + vy * vy)) in *.
  assert (Hnz : R_sqrt.sqrt (wx * f * (wx * f) + wy * f * (wy * f)) <> 0)
    by (rewrite Hs; exact Hu).
  destruct (enforceMinVelocity_floor (wx * f) (wy * f) Hnz)
    as (zx & zy & -> & _ & Hlow & Hhigh).
  rewrite norm_Fin; f_equal; rewrite Hs in Hlow, Hhigh.
  destruct (Rlt_dec u 1) as [Hlt | Hge].
  - destruct (Hlow Hlt) as (_ & _ & ->). rewrite Rmax_left; lra.
  - destruct Hhigh as [-> ->]; [lra |]. rewrite Hs, Rmax_right; lra.
Qed.

(** ** The contact point *)
Lemma pushBounded_last {A : Type} (cap : nat) (x : A) (l : list A) :
  (0 < cap)%nat -> exists l' : list A, pushBounded cap x l = l' ++ [x].
Proof.
  intros Hcap; unfold pushBounded.
  destruct (Nat.ltb_spec cap (length (l ++ [x]))) as [Hlt | Hge]; [| eauto].
  destruct l as [| o l]; [simpl in Hlt; lia |].
  exists l; reflexivity.
Qed.

(** X3: a tick that resolves a collision appends, as the newest collision
    point, the point at distance [|CIRCLE_RADIUS|] from the circle's centre
    along the contact angle, whatever the ball's radius. *)
Theorem contact_point_on_boundary (WIDTH HEIGHT now : R) (s : State) :
  touches WIDTH HEIGHT (advance now s) = true ->
  exists (theta px py : R) (older : list point),
    contactAngle WIDTH HEIGHT now s = Fin theta
    /\ collisionPoints (update WIDTH HEIGHT now s) = older ++ [(Fin px, Fin py)]
    /\ px = WIDTH / 2 + CIRCLE_RADIUS WIDTH HEIGHT * Rtrigo_def.cos theta
    /\ py = HEIGHT / 2 + CIRCLE_RADIUS WIDTH HEIGHT * Rtrigo_def.sin theta
    /\ R_sqrt.sqrt ((px - WIDTH / 2) * (px - WIDTH / 2)
                    + (py - HEIGHT / 2) * (py - HEIGHT / 2))
       = Rabs (CIRCLE_RADIUS WIDTH HEIGHT).
Proof.
  intros Ht.
  destruct (touches_finite WIDTH HEIGHT _ Ht) as (bx & by' & r & Hc & _ & _).
  assert (Ha : contactAngle WIDTH HEIGHT now s
               = Fin (Ratan2 (by' - HEIGHT / 2) (bx - WIDTH / 2)))
    by (unfold contactAngle; rewrite (offset_Fin WIDTH HEIGHT bx by' _ Hc); reflexivity).
  set (theta := Ratan2 (by' - HEIGHT / 2) (bx - WIDTH / 2)) in *.
  assert (Hp : contactPoint WIDTH HEIGHT now s
               = (Fin (WIDTH / 2 + CIRCLE_RADIUS WIDTH HEIGHT * Rtrigo_def.cos theta),
                  Fin (HEIGHT / 2 + CIRCLE_RADIUS WIDTH HEIGHT * Rtrigo_def.sin theta))).
  { unfold contactPoint; fold (contactAngle WIDTH HEIGHT now s); rewrite Ha; reflexivity. }
  destruct (pushBounded_last MAX_COLLISION_POINTS (contactPoint WIDTH HEIGHT now s)
              (collisionPoints s)) as (older & Hl); [unfold MAX_COLLISION_POINTS; lia |].
  exists theta; do 2 eexists; exists older.
  split; [exact Ha |].
  split; [rewrite update_collisionPoints, Ht, Hl, Hp; reflexivity |].
  split; [reflexivity |]. split; [reflexivity |].
  apply polar_distance.
Qed.

(** ** Frames and the clock *)
(** X7: after [stop], the frames the scheduler still delivers change
    nothing. *)
Theorem frames_after_stop (WIDTH HEIGHT : R) (ts : list R) (s : State) :
  run WIDTH HEIGHT (map Frame ts) (stop s) = stop s.
Proof.
  induction ts as [| t ts IH]; [reflexivity |].
  simpl map; rewrite run_cons.
  replace (step WIDTH HEIGHT (stop s) (Frame t)) with (stop s) by reflexivity.
  exact IH.
Qed.

(** X8: on a running simulation, the elapsed time after a frame is the
    clock reading of that frame minus [startTime], in seconds, however many
    frames came before. *)
Theorem elapsed_is_wall_clock (WIDTH HEIGHT : R) (ts : list R) (t : R) (s : State) :
  running s = true ->
  elapsedTime (run WIDTH HEIGHT (map Frame (ts ++ [t])) s) = (t - startTime s) / 1000.
Proof.
  revert s; induction ts as [| t0 ts IH]; intros s Hr.
  - simpl app; simpl map; rewrite run_cons; simpl run; simpl step.
    apply (animate_elapsedTime WIDTH HEIGHT t s Hr).
  - simpl app; simpl map; rewrite run_cons; simpl step.
    destruct (animate_elapsedTime WIDTH HEIGHT t0 s Hr) as (_ & Hs & Hr').
    rewrite (IH _ Hr'), Hs; reflexivity.
Qed.

(** ** The motion-sample history as a sliding window *)
Lemma firstn_app_firstn {A : Type} (n : nat) (a b : list A) :
  firstn n (a ++ firstn n b) = firstn n (a ++ b).
Proof.
  rewrite !firstn_app, firstn_firstn; do 2 f_equal; lia.
Qed.

Lemma lastn_app_lastn {A : Type} (n : nat) (l r : list A) :
  lastn n (lastn n l ++ r) = lastn n (l ++ r).
Proof.
  unfold lastn; rewrite !rev_app_distr, rev_involutive, firstn_app_firstn; reflexivity.
Qed.

Lemma pushBounded_lastn {A : Type} (cap : nat) (x : A) (l : list A) :
  (length l <= cap)%nat -> pushBounded cap x l = lastn cap (l ++ [x]).
Proof.
  intros Hl; unfold pushBounded, lastn.
  rewrite rev_app_distr; simpl rev; simpl app.
  destruct (Nat.ltb_spec cap (length (l ++ [x]))) as [Hlt | Hge];
    rewrite length_app in *; simpl in *.
  - assert (Hlen : length l = cap) by lia.
    destruct cap as [| c]; [destruct l; [reflexivity | discriminate] |].
    destruct l as [| o l]; [discriminate |].
    simpl in Hlen; simpl firstn; simpl rev; simpl tl.
    replace (firstn c (rev l ++ [o])) with (rev l).
    + simpl; rewrite rev_involutive; reflexivity.
    + rewrite firstn_app, firstn_all2 by (rewrite length_rev; lia).
      rewrite length_rev. replace (c - length l)%nat with 0%nat by lia.
      simpl; rewrite app_nil_r; reflexivity.
  - rewrite firstn_all2 by (simpl; rewrite length_rev; lia).
    simpl; rewrite rev_involutive; reflexivity.
Qed.

(** X4: on a running simulation, after any number of frames the
    motion-sample history is the last [MOTION_BLUR_STEPS] entries of what it
    held before followed by the centre the ball had at the start of each
    frame, in order. *)
Theorem motion_history_window (WIDTH HEIGHT : R) (ts : list R) (s : State) :
  running s = true ->
  (length (previousPositions s) <= MOTION_BLUR_STEPS)%nat ->
  previousPositions (run WIDTH HEIGHT (map Frame ts) s)
  = lastn MOTION_BLUR_STEPS (previousPositions s ++ centersBefore WIDTH HEIGHT ts s).
Proof.
  revert s; induction ts as [| t ts IH]; intros s Hr Hl.
  - simpl; rewrite app_nil_r; unfold lastn.
    rewrite firstn_all2 by (rewrite length_rev; exact Hl).
    symmetry; apply rev_involutive.
  - simpl map; rewrite run_cons; simpl step; simpl centersBefore.
    assert (Hp : previousPositions (animate WIDTH HEIGHT t s)
                 = pushBounded MOTION_BLUR_STEPS (ballCenter s) (previousPositions s)).
    { unfold animate; rewrite Hr; simpl negb; cbv iota.
      apply (update_previousPositions WIDTH HEIGHT t s). }
    destruct (animate_elapsedTime WIDTH HEIGHT t s Hr) as (_ & _ & Hr').
    rewrite (IH _ Hr'); [| rewrite Hp; apply pushBounded_length, Hl].
    rewrite Hp, (pushBounded_lastn _ _ _ Hl), lastn_app_lastn, <- app_assoc.
    reflexivity.
Qed.

(** ** The radius at its cap *)
Lemma animate_ballRadius (WIDTH HEIGHT now : R) (s : State) :
  ballRadius (animate WIDTH HEIGHT now s) = ballRadius s
  \/ ballRadius (animate WIDTH HEIGHT now s) = grow WIDTH HEIGHT s.
Proof.
  unfold animate; destruct (running s); simpl negb; cbv iota; [| left; reflexivity].
  change (ballRadius (set_animationId _ (draw ?u))) with (ballRadius u).
  rewrite update_ballRadius.
  destruct (touches WIDTH HEIGHT (advance now s)); [right | left]; reflexivity.
Qed.

Lemma start_ballRadius (WIDTH HEIGHT now now' : R) (s : State) :
  ballRadius (start WIDTH HEIGHT now now' s) = ballRadius s
  \/ ballRadius (start WIDTH HEIGHT now now' s) = grow WIDTH HEIGHT s.
Proof.
  unfold start; set (s1 := set_running true _).
  assert (Hr : ballRadius s1 = ballRadius s) by (unfold s1; destruct (running s); reflexivity).
  assert (Hg : grow WIDTH HEIGHT s1 = grow WIDTH HEIGHT s)
    by (unfold s1, grow; destruct (running s); reflexivity).
  rewrite <- Hr, <- Hg; apply animate_ballRadius.
Qed.

Lemma step_ballRadius (WIDTH HEIGHT : R) (s : State) (o : Op) :
  isReset o = false ->
  ballRadius (step WIDTH HEIGHT s o) = ballRadius s
  \/ ballRadius (step WIDTH HEIGHT s o) = grow WIDTH HEIGHT s.
Proof.
  intros Hnr; destruct o; simpl step; try discriminate;
    try (left; reflexivity).
  - left; unfold startRecording, setupRecording, recorderState; simpl;
      destruct (option_map _ _) as [st|]; try destruct st; reflexivity.
  - left; unfold stopRecording;
      destruct (mediaRecorder s); try (destruct (recorderState s) as [st|]; try destruct st);
      reflexivity.
  - apply start_ballRadius.
  - left; unfold handleMouseDown;
      match goal with |- context [if ?b then _ else _] => destruct b end; reflexivity.
  - left; unfold handleMouseMove; destruct (isDragging s); reflexivity.
  - unfold handleMouseUp; destruct (isDragging s); [| left; reflexivity].
    apply (start_ballRadius WIDTH HEIGHT now now' (set_isDragging false s)).
  - apply animate_ballRadius.
  - left; unfold deliverData, ondataavailable;
      destruct (nth_error _ _); try destruct (_ <? _)%nat; reflexivity.
  - left; unfold deliverStop, onstop;
      destruct (nth_error _ _) as [r|]; try destruct (stopQueued r); simpl;
      try destruct (onRecordingComplete s); reflexivity.
Qed.

(** X5: once the radius is a finite number of at least [MAX_BALL_RADIUS],
    no operation other than [reset] changes it, whatever growth rate is
    installed. *)
Theorem radius_stays_at_cap (WIDTH HEIGHT : R) (ops : list Op) (s : State) (r : R) :
  ballRadius s = Fin r ->
  MAX_BALL_RADIUS WIDTH HEIGHT <= r ->
  Forall (fun o => isReset o = false) ops ->
  ballRadius (run WIDTH HEIGHT ops s) = Fin r.
Proof.
  intros Hr Hmax; revert s Hr; induction ops as [| o ops IH]; intros s Hr Hnr; [exact Hr |].
  inversion Hnr; subst; rewrite run_cons; apply IH; [| assumption].
  destruct (step_ballRadius WIDTH HEIGHT s o) as [-> | ->]; [assumption | exact Hr |].
  unfold grow; rewrite Hr; simpl ltb; rewrite Rltb_false by exact Hmax; reflexivity.
Qed.

(** ** A centre that is no number *)

Lemma norm_NaN (p : point) : fst p = NaN \/ snd p = NaN -> norm p = NaN.
Proof.
  unfold norm, add, mul; intros [-> | ->]; [reflexivity |].
  rewrite (lift2_NaN_r Rmult), lift2_NaN_r; reflexivity.
Qed.

Lemma offScreen_update (WIDTH HEIGHT now : R) (s : State) :
  offScreen s ->
  update WIDTH HEIGHT now s = advance now s /\ offScreen (advance now s).
Proof.
  intros Hoff.
  assert (Hoff' : offScreen (advance now s)).
  { unfold offScreen, advance, integrate in *; simpl.
    destruct Hoff as [-> | ->]; [left | right]; reflexivity. }
  split; [| exact Hoff'].
  assert (Ht : touches WIDTH HEIGHT (advance now s) = false).
  { unfold touches, geb; rewrite norm_NaN; [apply leb_NaN_r |].
    unfold offset, offScreen in *.
    destruct Hoff' as [-> | ->]; [left | right]; reflexivity. }
  unfold update; rewrite Ht; reflexivity.
Qed.

Lemma animate_lost (WIDTH HEIGHT now : R) (s : State) :
  isDragging s = false -> offScreen s -> ballKept s (animate WIDTH HEIGHT now s).
Proof.
  intros Hd Hoff; unfold animate; destruct (running s); simpl negb; cbv iota.
  - destruct (offScreen_update WIDTH HEIGHT now s Hoff) as [-> Hoff'].
    repeat split; try assumption.
  - repeat split; assumption.
Qed.

Lemma start_lost (WIDTH HEIGHT now now' : R) (s : State) :
  isDragging s = false -> offScreen s -> ballKept s (start WIDTH HEIGHT now now' s).
Proof.
  intros Hd Hoff; unfold start; set (s1 := set_running true _).
  assert (H1 : isDragging s1 = false /\ offScreen s1
               /\ collisionPoints s1 = collisionPoints s /\ ballRadius s1 = ballRadius s
               /\ collisionCalls s1 = collisionCalls s)
    by (unfold s1, offScreen; destruct (running s); repeat split; assumption).
  destruct H1 as (Hd1 & Hoff1 & Hc1 & Hr1 & Hn1).
  destruct (animate_lost WIDTH HEIGHT now' s1 Hd1 Hoff1) as (? & ? & Hc & Hr & Hn).
  repeat split; try assumption; congruence.
Qed.

Lemma step_lost (WIDTH HEIGHT : R) (s : State) (o : Op) :
  isReset o = false -> isDragging s = false -> offScreen s ->
  ballKept s (step WIDTH HEIGHT s o).
Proof.
  intros Hnr Hd Hoff.
  assert (Hsame : forall s', isDragging s' = isDragging s -> ballCenter s' = ballCenter s ->
                             collisionPoints s' = collisionPoints s ->
                             ballRadius s' = ballRadius s ->
                             collisionCalls s' = collisionCalls s -> ballKept s s').
  { intros s' H1 H2 H3 H4 H5; unfold ballKept, offScreen; rewrite H1, H2; auto. }
  destruct o; simpl step; try discriminate.
  - apply Hsame; unfold startRecording, setupRecording, recorderState; simpl;
      destruct (option_map _ _) as [st|]; try destruct st; reflexivity.
  - apply Hsame; unfold stopRecording;
      destruct (mediaRecorder s); try (destruct (recorderState s) as [st|]; try destruct st);
      reflexivity.
  - apply Hsame; reflexivity.
  - apply Hsame; reflexivity.
  - apply Hsame; reflexivity.
  - apply Hsame; reflexivity.
  - apply start_lost; assumption.
  - apply Hsame; reflexivity.
  - assert (Hmiss : handleMouseDown x y s = s).
    { unfold handleMouseDown; rewrite norm_NaN; [reflexivity |].
      simpl fst; simpl snd; unfold sub.
      destruct Hoff as [-> | ->]; [left | right]; apply lift2_NaN_r. }
    rewrite Hmiss; apply Hsame; reflexivity.
  - unfold handleMouseMove; rewrite Hd; apply Hsame; reflexivity.
  - unfold handleMouseUp; rewrite Hd; apply Hsame; reflexivity.
  - apply animate_lost; assumption.
  - apply Hsame; unfold deliverData, ondataavailable;
      destruct (nth_error _ _); try destruct (_ <? _)%nat; reflexivity.
  - apply Hsame; unfold deliverStop, onstop;
      destruct (nth_error _ _) as [r|]; try destruct (stopQueued r); simpl;
      try destruct (onRecordingComplete s); reflexivity.
Qed.

(** X6: when a coordinate of the ball's centre is [NaN] and no drag is
    active, every operation other than [reset] leaves it so: no press can
    grab the ball, no tick resolves a collision, and the radius, the
    collision points and the listener's calls stay as they are. *)
Theorem lost_ball_stays_lost (WIDTH HEIGHT : R) (ops : list Op) (s : State) :
  isDragging s = false ->
  fst (ballCenter s) = NaN \/ snd (ballCenter s) = NaN ->
  Forall (fun o => isReset o = false) ops ->
  let s' := run WIDTH HEIGHT ops s in
  isDragging s' = false
  /\ (fst (ballCenter s') = NaN \/ snd (ballCenter s') = NaN)
  /\ collisionPoints s' = collisionPoints s
  /\ ballRadius s' = ballRadius s
  /\ collisionCalls s' = collisionCalls s.
Proof.
  intros Hd Hoff Hnr; cbv zeta.
  revert s Hd Hoff; induction ops as [| o ops IH]; intros s Hd Hoff.
  - repeat split; assumption.
  - inversion Hnr; subst; rewrite run_cons.
    destruct (step_lost WIDTH HEIGHT s o) as (Hd1 & Hoff1 & Hc1 & Hr1 & Hn1); try assumption.
    destruct (IH ltac:(assumption) _ Hd1 Hoff1) as (? & ? & Hc & Hr & Hn).
    repeat split; try assumption; congruence.
Qed.

(** ** Recording and simulation do not interfere *)

Lemma update_recordingView (WIDTH HEIGHT now : R) (s : State) :
  recordingView (update WIDTH HEIGHT now s) = recordingView s.
Proof.
  unfold update; destruct (touches WIDTH HEIGHT (advance now s)); [| reflexivity].
  unfold resolveCollision.
  match goal with |- context [if ?b then _ else _] => destruct b end; reflexivity.
Qed.

Lemma animate_recordingView (WIDTH HEIGHT now : R) (s : State) :
  recordingView (animate WIDTH HEIGHT now s) = recordingView s.
Proof.
  unfold animate; destruct (running s); simpl negb; cbv iota; [| reflexivity].
  change (recordingView (set_animationId _ (draw ?u))) with (recordingView u).
  apply update_recordingView.
Qed.

Lemma start_recordingView (WIDTH HEIGHT now now' : R) (s : State) :
  recordingView (start WIDTH HEIGHT now now' s) = recordingView s.
Proof.
  unfold start; rewrite animate_recordingView; destruct (running s); reflexivity.
Qed.

Lemma step_views (WIDTH HEIGHT : R) (s : State) (o : Op) :
  if isRecordingOp o
  then simulationView (step WIDTH HEIGHT s o) = simulationView s
  else recordingView (step WIDTH HEIGHT s o) = recordingView s.
Proof.
  destruct o; simpl isRecordingOp; simpl step; try reflexivity.
  - unfold startRecording, setupRecording, recorderState; simpl;
      destruct (option_map _ _) as [st|]; try destruct st; reflexivity.
  - unfold stopRecording;
      destruct (mediaRecorder s); try (destruct (recorderState s) as [st|]; try destruct st);
      reflexivity.
  - apply start_recordingView.
  - unfold handleMouseDown;
      match goal with |- context [if ?b then _ else _] => destruct b end; reflexivity.
  - unfold handleMouseMove; destruct (isDragging s); reflexivity.
  - unfold handleMouseUp; destruct (isDragging s); [| reflexivity].
    apply (start_recordingView WIDTH HEIGHT now now' (set_isDragging false s)).
  - apply animate_recordingView.
  - unfold deliverData, ondataavailable;
      destruct (nth_error _ _); try destruct (_ <? _)%nat; reflexivity.
  - unfold deliverStop, onstop;
      destruct (nth_error _ _) as [r|]; try destruct (stopQueued r); simpl;
      try destruct (onRecordingComplete s); reflexivity.
Qed.

(** X13: the recording calls and recorder events never change the
    simulation (loop, clock, drag flag, tuning, ball, histories), and no
    other operation changes the recording (recorders, current recorder,
    chunk buffer, callback, completed captures). *)
Theorem recording_simulation_independent (WIDTH HEIGHT : R) (ops : list Op) (s : State) :
  (forallb isRecordingOp ops = true ->
   simulationView (run WIDTH HEIGHT ops s) = simulationView s)
  /\ (forallb (fun o => negb (isRecordingOp o)) ops = true ->
      recordingView (run WIDTH HEIGHT ops s) = recordingView s).
Proof.
  revert s; induction ops as [| o ops IH]; intros s; [split; reflexivity |].
  pose proof (step_views WIDTH HEIGHT s o) as Hstep.
  rewrite run_cons; simpl forallb.
  destruct (isRecordingOp o); simpl; split; intros Hall; try discriminate.
  - rewrite (proj1 (IH _) Hall); exact Hstep.
  - rewrite (proj2 (IH _) Hall); exact Hstep.
Qed.

(** ** A capture from start to completion *)
Lemma run_app (WIDTH HEIGHT : R) (ops1 ops2 : list Op) (s : State) :
  run WIDTH HEIGHT (ops1 ++ ops2) s = run WIDTH HEIGHT ops2 (run WIDTH HEIGHT ops1 s).
Proof. apply fold_left_app. Qed.

Lemma setRecorder_last (l : list MediaRecorder) (x r : MediaRecorder) :
  setRecorder (length l) r (l ++ [x]) = l ++ [r].
Proof. induction l as [| h t IH]; simpl; [reflexivity | rewrite IH; reflexivity]. Qed.

Lemma nth_error_setRecorder (l : list MediaRecorder) (id : nat) (r r0 : MediaRecorder) :
  nth_error l id = Some r0 -> nth_error (setRecorder id r l) id = Some r.
Proof.
  revert id; induction l as [| h t IH]; intros [| n] Hn; simpl in *;
    try discriminate; [reflexivity | apply IH, Hn].
Qed.

Lemma run_data (WIDTH HEIGHT : R) (id : nat) (ds : list Blob) (s : State) (r : MediaRecorder) :
  nth_error (recorders s) id = Some r ->
  let s' := run WIDTH HEIGHT (map (DataAvailable id) ds) s in
  recorders s' = recorders s /\ mediaRecorder s' = mediaRecorder s
  /\ onRecordingComplete s' = onRecordingComplete s /\ completed s' = completed s
  /\ Blob_of_chunks (chunks s') = Blob_of_chunks (chunks s) ++ concat ds.
Proof.
  cbv zeta; revert s; induction ds as [| d ds IH]; intros s Hr.
  - simpl; rewrite app_nil_r; auto.
  - simpl map; rewrite run_cons; simpl step.
    assert (H1 : recorders (deliverData id d s) = recorders s
                 /\ mediaRecorder (deliverData id d s) = mediaRecorder s
                 /\ onRecordingComplete (deliverData id d s) = onRecordingComplete s
                 /\ completed (deliverData id d s) = completed s
                 /\ Blob_of_chunks (chunks (deliverData id d s))
                    = Blob_of_chunks (chunks s) ++ d).
    { unfold deliverData, ondataavailable, Blob_size, Blob_of_chunks; rewrite Hr.
      destruct d as [| b d]; simpl.
      - rewrite app_nil_r; auto.
      - rewrite concat_app; simpl; rewrite app_nil_r; auto. }
    destruct H1 as (Hrec & Hm & Hcb & Hco & Hch).
    destruct (IH (deliverData id d s)) as (Hrec' & Hm' & Hcb' & Hco' & Hch').
    { rewrite Hrec; exact Hr. }
    rewrite Hrec', Hm', Hcb', Hco', Hch', Hch, <- app_assoc.
    repeat split; assumption.
Qed.

(** X9: a capture that is started, receives data before and after
    [stopRecording], and then receives its [stop] event calls the completion
    callback exactly once, with the concatenation of all the data in the
    order of delivery (empty blobs contribute nothing); without a callback
    nothing is called.  The chunk buffer ends empty and the recorder
    inactive. *)
Theorem capture_round_trip
  (WIDTH HEIGHT : R) (cb : option Callback) (ds1 ds2 : list Blob) (s : State) :
  let id := length (recorders s) in
  let s' := run WIDTH HEIGHT
              (StartRecording cb :: map (DataAvailable id) ds1
               ++ StopRecording :: map (DataAvailable id) ds2 ++ [Stopped id]) s in
  completed s'
  = completed s ++ match cb with
                   | Some c => [(c, concat (ds1 ++ ds2))]
                   | None => []
                   end
  /\ chunks s' = []
  /\ recorderState s' = Some inactive.
Proof.
  cbv zeta; set (id := length (recorders s)).
  rewrite run_cons, run_app, run_cons, run_app; simpl step.
  set (s1 := startRecording cb s).
  assert (H1 : recorders s1 = recorders s ++ [mkMediaRecorder recording false]
               /\ mediaRecorder s1 = Some id /\ chunks s1 = []
               /\ onRecordingComplete s1 = cb /\ completed s1 = completed s).
  { unfold s1, startRecording, recorderState, setupRecording; simpl.
    rewrite nth_error_app2, Nat.sub_diag by lia; simpl.
    rewrite setRecorder_last; auto. }
  destruct H1 as (Hrec1 & Hm1 & Hch1 & Hcb1 & Hco1).
  assert (Hn1 : nth_error (recorders s1) id = Some (mkMediaRecorder recording false))
    by (rewrite Hrec1; unfold id; rewrite nth_error_app2, Nat.sub_diag by lia; reflexivity).
  set (s2 := run WIDTH HEIGHT (map (DataAvailable id) ds1) s1).
  destruct (run_data WIDTH HEIGHT id ds1 s1 _ Hn1) as (Hrec2 & Hm2 & Hcb2 & Hco2 & Hch2).
  fold s2 in Hrec2, Hm2, Hcb2, Hco2, Hch2.
  set (s3 := stopRecording s2).
  assert (H3 : s3 = set_recorders
                      (setRecorder id (mkMediaRecorder inactive true) (recorders s2)) s2).
  { unfold s3, stopRecording, recorderState; rewrite Hm2, Hm1, Hrec2, Hn1; reflexivity. }
  assert (Hn3 : nth_error (recorders s3) id = Some (mkMediaRecorder inactive true))
    by (rewrite H3; simpl; rewrite Hrec2; apply (nth_error_setRecorder _ _ _ _ Hn1)).
  set (s4 := run WIDTH HEIGHT (map (DataAvailable id) ds2) s3).
  destruct (run_data WIDTH HEIGHT id ds2 s3 _ Hn3) as (Hrec4 & Hm4 & Hcb4 & Hco4 & Hch4).
  fold s4 in Hrec4, Hm4, Hcb4, Hco4, Hch4.
  assert (Hn4 : nth_error (recorders s4) id = Some (mkMediaRecorder inactive true))
    by (rewrite Hrec4; exact Hn3).
  assert (Hblob : Blob_of_chunks (chunks s4) = concat (ds1 ++ ds2)).
  { rewrite Hch4, H3; simpl chunks; rewrite Hch2, Hch1, concat_app; reflexivity. }
  assert (Hcb : onRecordingComplete s4 = cb)
    by (rewrite Hcb4, H3; simpl; rewrite Hcb2; exact Hcb1).
  assert (Hco : completed s4 = completed s)
    by (rewrite Hco4, H3; simpl; rewrite Hco2; exact Hco1).
  assert (Hm : mediaRecorder s4 = Some id)
    by (rewrite Hm4, H3; simpl; rewrite Hm2; exact Hm1).
  simpl run; simpl step; unfold deliverStop; rewrite Hn4; simpl stopQueued; cbv iota.
  unfold onstop, recorderState; simpl onRecordingComplete; simpl chunks; simpl completed.
  rewrite Hcb, Hblob, Hco.
  destruct cb as [c |]; simpl; rewrite Hm, (nth_error_setRecorder _ _ _ _ Hn4);
    [| rewrite app_nil_r]; auto.
Qed.



(** ** Pointer sessions *)
(** X11: on a ball with finite centre and radius [r], a press at finite
    coordinates starts a drag and stops the loop when [r >= 0] and the press
    is within [r] of the centre, and changes nothing otherwise; a press at a
    coordinate that is [NaN] changes nothing. *)
Theorem press_hit_test (x y bx by' r : R) (s : State) :
  ballCenter s = (Fin bx, Fin by') ->
  ballRadius s = Fin r ->
  (0 <= r /\ (x - bx) * (x - bx) + (y - by') * (y - by') <= r * r ->
   handleMouseDown (Fin x) (Fin y) s = stop (set_isDragging true s))
  /\ (~ (0 <= r /\ (x - bx) * (x - bx) + (y - by') * (y - by') <= r * r) ->
      handleMouseDown (Fin x) (Fin y) s = s)
  /\ (forall p : num, handleMouseDown NaN p s = s /\ handleMouseDown p NaN s = s).
Proof.
  intros Hc Hr; split; [| split].
  - intros [Hr0 Hin]; apply (handleMouseDown_hit x y bx by' r s Hc Hr Hr0 Hin).
  - intros Hout; unfold handleMouseDown.
    rewrite Hc, Hr; simpl fst; simpl snd; simpl sub; rewrite norm_Fin; simpl leb.
    set (q := (x - bx) * (x - bx) + (y - by') * (y - by')) in *.
    unfold Rleb; destruct (Rle_dec (R_sqrt.sqrt q) r) as [Hle | Hgt]; [| reflexivity].
    exfalso; apply Hout.
    pose proof (sqrt_pos q) as Hp.
    assert (Hq : 0 <= q) by (unfold q; apply Rplus_le_le_0_compat; apply Rle_0_sqr).
    assert (Hr0 : 0 <= r) by lra.
    split; [exact Hr0 |].
    rewrite <- (sqrt_sqrt q Hq) at 1.
    apply Rmult_le_compat; assumption.
  - intros p; unfold handleMouseDown; split.
    + rewrite norm_NaN; [reflexivity | left; reflexivity].
    + rewrite norm_NaN; [reflexivity | right; reflexivity].
Qed.

Lemma run_moves_held (WIDTH HEIGHT : R) (pts : list point) (p a : point) (s : State) :
  run WIDTH HEIGHT (map pointerMove (pts ++ [p])) (held (fst a) (snd a) s)
  = held (fst p) (snd p) s.
Proof.
  revert a; induction pts as [| q pts IH]; intros a.
  - reflexivity.
  - simpl app; simpl map; rewrite run_cons.
    replace (step WIDTH HEIGHT (held (fst a) (snd a) s) (pointerMove q))
      with (held (fst q) (snd q) s) by reflexivity.
    apply IH.
Qed.

(** X12: a press on the ball, any pointer moves ending at [p], and the
    release amount to one tick, run from the state before the press with
    the ball held at [p] with zero velocity and the clock re-anchored: only
    the last pointer position matters. *)
Theorem drag_session
  (WIDTH HEIGHT : R) (x y bx by' r : R) (pts : list point) (p : point)
  (now now' : R) (s : State) :
  ballCenter s = (Fin bx, Fin by') ->
  ballRadius s = Fin r ->
  0 <= r ->
  (x - bx) * (x - bx) + (y - by') * (y - by') <= r * r ->
  run WIDTH HEIGHT
    (MouseDown (Fin x) (Fin y) :: map pointerMove (pts ++ [p]) ++ [MouseUp now now']) s
  = animate WIDTH HEIGHT now' (letGo now (held (fst p) (snd p) s)).
Proof.
  intros Hc Hr Hr0 Hin.
  rewrite run_cons, run_app.
  change (step WIDTH HEIGHT s (MouseDown (Fin x) (Fin y)))
    with (handleMouseDown (Fin x) (Fin y) s).
  rewrite (handleMouseDown_hit x y bx by' r s Hc Hr Hr0 Hin).
  assert (Hmoves : run WIDTH HEIGHT (map pointerMove (pts ++ [p])) (stop (set_isDragging true s))
                   = held (fst p) (snd p) s).
  { destruct pts as [| q pts]; [reflexivity |].
    simpl app; simpl map; rewrite run_cons.
    replace (step WIDTH HEIGHT (stop (set_isDragging true s)) (pointerMove q))
      with (held (fst q) (snd q) s) by reflexivity.
    apply run_moves_held. }
  rewrite Hmoves; reflexivity.
Qed.

(** ** Instances on the canvas of 1000 by 1000 *)
Lemma atWall_fresh_touches : touches 1000 1000 (advance 0 (atWall fresh)) = true.
Proof.
  apply (atWall_touches 0.4 0.9995 5); [reflexivity | reflexivity | reflexivity | lra | lra].
Qed.

Lemma collision_speed_witness :
  norm (ballVelocity (update 1000 1000 0 (atWall fresh)))
  = Fin (Rmax 1 (0.95 * Rabs 1.02
                 * R_sqrt.sqrt (0 * 0.9995 * (0 * 0.9995)
                                + (0 + 0.4) * 0.9995 * ((0 + 0.4) * 0.9995)))).
Proof.
  apply (collision_speed 1000 1000 0 (atWall fresh)
           (500 + 0 * 0.9995) (900 + (0 + 0.4) * 0.9995) (0 * 0.9995) ((0 + 0.4) * 0.9995) 1.02
           atWall_fresh_touches eq_refl eq_refl eq_refl).
  - assert (400 <= R_sqrt.sqrt
                     ((500 + 0 * 0.9995 - 1000 / 2) * (500 + 0 * 0.9995 - 1000 / 2)
                      + (900 + (0 + 0.4) * 0.9995 - 1000 / 2)
                        * (900 + (0 + 0.4) * 0.9995 - 1000 / 2)))
      by (apply sqrt_ge_component; lra).
    lra.
  - assert (0.3 <= R_sqrt.sqrt (0 * 0.9995 * (0 * 0.9995)
                                + (0 + 0.4) * 0.9995 * ((0 + 0.4) * 0.9995)))
      by (apply sqrt_ge_component; lra).
    rewrite Rabs_right by lra; nra.
Defined.

Lemma contact_point_on_boundary_witness :
  exists (theta px py : R) (older : list point),
    contactAngle 1000 1000 0 (atWall fresh) = Fin theta
    /\ collisionPoints (update 1000 1000 0 (atWall fresh)) = older ++ [(Fin px, Fin py)]
    /\ px = 1000 / 2 + CIRCLE_RADIUS 1000 1000 * Rtrigo_def.cos theta
    /\ py = 1000 / 2 + CIRCLE_RADIUS 1000 1000 * Rtrigo_def.sin theta
    /\ R_sqrt.sqrt ((px - 1000 / 2) * (px - 1000 / 2) + (py - 1000 / 2) * (py - 1000 / 2))
       = Rabs (CIRCLE_RADIUS 1000 1000).
Proof.
  exact (contact_point_on_boundary 1000 1000 0 (atWall fresh) atWall_fresh_touches).
Defined.

Lemma motion_history_window_witness :
  previousPositions (run 1000 1000 (map Frame [0; 16]) (atWall fresh))
  = lastn MOTION_BLUR_STEPS
      (previousPositions (atWall fresh) ++ centersBefore 1000 1000 [0; 16] (atWall fresh)).
Proof.
  apply (motion_history_window 1000 1000 [0; 16] (atWall fresh) eq_refl).
  apply Nat.le_0_l.
Defined.

Lemma elapsed_is_wall_clock_witness :
  elapsedTime (run 1000 1000 (map Frame ([0; 16] ++ [33])) (atWall fresh))
  = (33 - startTime (atWall fresh)) / 1000.
Proof. exact (elapsed_is_wall_clock 1000 1000 [0; 16] 33 (atWall fresh) eq_refl). Defined.

Lemma radius_stays_at_cap_witness :
  ballRadius
    (run 250 250 [SetBallGrowthRate (Fin 0.5); Start 0 0; Frame 16]
       (constructor 250 250 false 0))
  = Fin 5.
Proof.
  apply (radius_stays_at_cap 250 250 _ (constructor 250 250 false 0) 5 eq_refl).
  - unfold MAX_BALL_RADIUS, CIRCLE_RADIUS; rewrite Rmin_left by lra; lra.
  - repeat constructor.
Defined.

Lemma animate_isDragging (WIDTH HEIGHT now : R) (s : State) :
  isDragging (animate WIDTH HEIGHT now s) = isDragging s.
Proof.
  unfold animate, update; destruct (running s); simpl negb; cbv iota; [| reflexivity].
  destruct (touches WIDTH HEIGHT (advance now s)); [| reflexivity].
  unfold resolveCollision.
  match goal with |- context [if ?b then _ else _] => destruct b end; reflexivity.
Qed.

Lemma draggedAway_lost :
  isDragging draggedAway = false
  /\ (fst (ballCenter draggedAway) = NaN \/ snd (ballCenter draggedAway) = NaN).
Proof.
  unfold draggedAway; split; [rewrite animate_isDragging; reflexivity |].
  destruct (animate_lost 1000 1000 0 (letGo 0 (held NaN NaN fresh)) eq_refl
              (or_introl eq_refl)) as (_ & Hoff & _).
  exact Hoff.
Qed.

Lemma lost_ball_stays_lost_witness :
  isDragging (run 1000 1000 [Frame 16; MouseDown (Fin 500) (Fin 900); Frame 33] draggedAway)
  = false
  /\ (fst (ballCenter
             (run 1000 1000 [Frame 16; MouseDown (Fin 500) (Fin 900); Frame 33] draggedAway))
      = NaN
      \/ snd (ballCenter
                (run 1000 1000 [Frame 16; MouseDown (Fin 500) (Fin 900); Frame 33] draggedAway))
         = NaN)
  /\ collisionPoints
       (run 1000 1000 [Frame 16; MouseDown (Fin 500) (Fin 900); Frame 33] draggedAway)
     = collisionPoints draggedAway
  /\ ballRadius
       (run 1000 1000 [Frame 16; MouseDown (Fin 500) (Fin 900); Frame 33] draggedAway)
     = ballRadius draggedAway
  /\ collisionCalls
       (run 1000 1000 [Frame 16; MouseDown (Fin 500) (Fin 900); Frame 33] draggedAway)
     = collisionCalls draggedAway.
Proof.
  apply (lost_ball_stays_lost 1000 1000
           [Frame 16; MouseDown (Fin 500) (Fin 900); Frame 33] draggedAway
           (proj1 draggedAway_lost) (proj2 draggedAway_lost)).
  repeat constructor.
Defined.

Lemma fresh_hit : (500 - 1000 / 2) * (500 - 1000 / 2)
                  + (370 - 1000 / 2.7) * (370 - 1000 / 2.7) <= 5 * 5.
Proof.
  assert (-1 <= 370 - 1000 / 2.7 <= 0) by lra.
  replace (500 - 1000 / 2) with 0 by lra; nra.
Qed.

Lemma press_hit_test_witness :
  (0 <= 5 /\ (500 - 1000 / 2) * (500 - 1000 / 2)
             + (370 - 1000 / 2.7) * (370 - 1000 / 2.7) <= 5 * 5 ->
   handleMouseDown (Fin 500) (Fin 370) fresh = stop (set_isDragging true fresh))
  /\ (~ (0 <= 5 /\ (500 - 1000 / 2) * (500 - 1000 / 2)
                   + (370 - 1000 / 2.7) * (370 - 1000 / 2.7) <= 5 * 5) ->
      handleMouseDown (Fin 500) (Fin 370) fresh = fresh)
  /\ (forall p : num, handleMouseDown NaN p fresh = fresh /\ handleMouseDown p NaN fresh = fresh).
Proof.
  exact (press_hit_test 500 370 (1000 / 2) (1000 / 2.7) 5 fresh eq_refl eq_refl).
Defined.

Lemma drag_session_witness :
  run 1000 1000
    (MouseDown (Fin 500) (Fin 370)
     :: map pointerMove ([(Fin 500, Fin 600)] ++ [(Fin 500, Fin 900)]) ++ [MouseUp 0 0]) fresh
  = animate 1000 1000 0 (letGo 0 (held (fst (Fin 500, Fin 900)) (snd (Fin 500, Fin 900)) fresh)).
Proof.
  apply (drag_session 1000 1000 500 370 (1000 / 2) (1000 / 2.7) 5
           [(Fin 500, Fin 600)] (Fin 500, Fin 900) 0 0 fresh eq_refl eq_refl).
  - lra.
  - exact fresh_hit.
Defined.
